(** * pkg/strategy/pvd/strategy.go: the rebalancing strategy "pvdot"

    A shallow embedding of the strategy and the properties of its
    decision logic.  Go maps [map[string]fixedpoint.Value] are finite maps
    [gmap string Value]; a read [m[k]] of an absent key gives the zero
    value.  A Go [range] over a map visits the entries in an unspecified
    order: the loops whose result depends on that order are written over an
    explicit enumeration of the entries, and the functions on maps
    instantiate it with [map_to_list]. *)

From Stdlib Require Import ZArith Lia.
From stdpp Require Import gmap strings list fin_maps.

Local Open Scope Z_scope.

(** ** Package fixedpoint *)

Module fixedpoint.

(** Modelled from the spec: package [fixedpoint] (the type [Value] and its
    methods) is not among the sources.  The spec calls the values decimals
    and allows them a rounding tolerance; the model is a decimal with
    eight fractional digits, held as the integer count of units of
    [1/DefaultPow].  Sums, differences, absolute values and comparisons
    are exact, and a product or a quotient is cut to a whole number of
    units (toward zero).  The range of the values is not bounded.  A
    quotient by zero, which the spec leaves undefined, is zero, as
    [Z.quot] gives it. *)
Definition Value : Type := Z.

Definition DefaultPow : Z := 100000000.

Definition Zero : Value := 0.
Definition One : Value := DefaultPow.

Definition Add (v v2 : Value) : Value := v + v2.
Definition Sub (v v2 : Value) : Value := v - v2.
Definition Mul (v v2 : Value) : Value := Z.quot (v * v2) DefaultPow.
Definition Div (v v2 : Value) : Value := Z.quot (v * DefaultPow) v2.
Definition Abs (v : Value) : Value := Z.abs v.

(** [Sign] and [Compare] return a Go [int]: -1, 0 or 1. *)
Definition Sign (v : Value) : Z := Z.sgn v.
Definition Compare (v v2 : Value) : Z :=
  match v ?= v2 with Lt => -1 | Eq => 0 | Gt => 1 end.

(** [v.Float64() == 1.0]: the spec reads the test as "the value is exactly
    one". *)
Definition Float64_is_1 (v : Value) : bool := v =? One.

(** [fixedpoint.NewFromFloat(0.0)] *)
Definition NewFromFloat_0 : Value := Zero.

End fixedpoint.

Import fixedpoint.

(** The zero value a Go map read gives for an absent key. *)
Definition index (m : gmap string Value) (k : string) : Value :=
  default Zero (m !! k).

(** ** Vector operations on maps *)

Definition Sum (m : gmap string Value) : Value :=
  map_fold (fun _ v sum => Add sum v) NewFromFloat_0 m.

(** [Normalize] either hands back its argument, the same map object, or
    builds a new map. *)
Inductive returned : Type :=
| SameMap
| NewMap (normalized : gmap string Value).

Definition Normalize_returns (m : gmap string Value) : returned :=
  let sum := Sum m in
  if Float64_is_1 sum then SameMap
  else NewMap (map_fold (fun k v normalized => <[k := Div v sum]> normalized) ∅ m).

Definition Normalize (m : gmap string Value) : gmap string Value :=
  match Normalize_returns m with
  | SameMap => m
  | NewMap normalized => normalized
  end.

Definition ElementwiseProduct (m1 m2 : gmap string Value) : gmap string Value :=
  map_fold (fun k v m => <[k := Mul v (index m2 k)]> m) ∅ m1.

(** ** Package types *)

Module types.

(** Modelled from the spec: package [types] is not among the sources.  Of
    [SubmitOrder] the strategy sets four fields (spec section 3, Order);
    a [Balance] has an available and a locked part and its total is their
    sum (section 4.3); of a [Ticker] only the last trade price is read. *)
Inductive SideType : Type := SideTypeBuy | SideTypeSell.

Inductive OrderType : Type := OrderTypeMarket.

Record SubmitOrder : Type := {
  Symbol : string;
  Side : SideType;
  Type_ : OrderType;
  Quantity : Value
}.

Record Balance : Type := {
  Available : Value;
  Locked : Value
}.

Definition Total (b : Balance) : Value := Add (Available b) (Locked b).

Record Ticker : Type := { Last : Value }.

Global Instance SideType_eq_dec : EqDecision SideType.
Proof. solve_decision. Defined.

Global Instance OrderType_eq_dec : EqDecision OrderType.
Proof. solve_decision. Defined.

Global Instance SubmitOrder_eq_dec : EqDecision SubmitOrder.
Proof. solve_decision. Defined.

End types.

Import types.

(** The zero [Balance] a read of [balances] gives for an absent currency. *)
Definition balance_of (balances : gmap string Balance) (k : string) : Balance :=
  default {| Available := Zero; Locked := Zero |} (balances !! k).

(** ** Package bbgo *)

Module bbgo.

(** Modelled from the spec: [bbgo.AdjustQuantityByMaxAmount] is not among
    the sources.  Section 4.4, step 6d: the quantity is capped so that
    quantity * price does not exceed the maximum notional,
    [quantity = min(quantity, maxNotional / price)]. *)
Definition AdjustQuantityByMaxAmount (quantity currentPrice maxAmount : Value) : Value :=
  Z.min quantity (Div maxAmount currentPrice).

End bbgo.

(** ** The collaborators of a tick and what a tick does to them *)

Definition error : Type := string.

(** [session.Exchange.QueryTicker] and [session.Account.Balances]. *)
Record ExchangeSession : Type := {
  QueryTicker : string -> Ticker + error;
  Balances : gmap string Balance
}.

(** [orderExecutor.SubmitOrders]: of its two results only the error is
    looked at. *)
Record OrderExecutor : Type := {
  SubmitOrders : list SubmitOrder -> option error
}.

(** Modelled from the spec: [PVDotSet] is declared in another file of the
    package.  Section 2, WeightSet: it produces a target weight map on
    demand. *)
Record PVDotSet : Type := {
  TargetWeights : gmap string Value
}.

(** The calls a tick makes on its collaborators, in the order it makes
    them.  Of the log lines, the one that reports a generated order and the
    two that report an error are kept; the other lines, which only print
    intermediate values, are left out. *)
Inductive event : Type :=
| CallQueryTicker (symbol : string)
| CallNotify (err : error)
| LogQueryTickerError (err : error)
| LogGeneratedOrder (order : SubmitOrder)
| CallSubmitOrders (orders : list SubmitOrder)
| LogSubmitOrderError (err : error).

(** A computation returns its result together with the calls it made. *)
Definition M (A : Type) : Type := (A * list event)%type.

Global Instance M_ret : MRet M := fun A a => (a, []).

Global Instance M_bind : MBind M := fun A B f m =>
  let '(a, t1) := m in
  let '(b, t2) := f a in
  (b, t1 ++ t2).

Definition emit (e : event) : M unit := (tt, [e]).

Definition result {A} (m : M A) : A := fst m.
Definition trace {A} (m : M A) : list event := snd m.

(** ** The strategy *)

Record Strategy : Type := {
  Interval : string;
  Window : Z;
  BaseCurrency : string;
  QuoteCurrencies : list string;
  Threshold : Value;
  IgnoreLocked : bool;
  Verbose : bool;
  DryRun : bool;
  MaxAmount : Value;
  set : PVDotSet
}.

Definition Validate (s : Strategy) : option error :=
  if Sign (Threshold s) <? 0 then Some "threshold should not less than 0"%string
  else if Sign (MaxAmount s) <? 0 then Some "maxAmount shoud not less than 0"%string
  else None.

Definition getSymbols (s : Strategy) : list string :=
  foldl (fun symbols c => symbols ++ [c +:+ BaseCurrency s]) [] (QuoteCurrencies s).

(** The loop of [getPrices] over the entries [kvs] of [targetWeights], from
    the prices filled so far. *)
Fixpoint getPrices_loop (s : Strategy) (session : ExchangeSession)
    (kvs : list (string * Value)) (prices : gmap string Value)
    : M (gmap string Value * option error) :=
  match kvs with
  | [] => mret (prices, None)
  | (currency, _) :: kvs' =>
      if decide (currency = BaseCurrency s) then
        getPrices_loop s session kvs' (<[currency := One]> prices)
      else
        let symbol := currency +:+ BaseCurrency s in
        emit (CallQueryTicker symbol) ;;
        match QueryTicker session symbol with
        | inr err =>
            emit (CallNotify err) ;;
            emit (LogQueryTickerError err) ;;
            mret (prices, Some err)
        | inl ticker =>
            getPrices_loop s session kvs' (<[currency := Last ticker]> prices)
        end
  end.

Definition getPrices_in (s : Strategy) (session : ExchangeSession)
    (kvs : list (string * Value)) : M (gmap string Value * option error) :=
  getPrices_loop s session kvs ∅.

Definition getPrices (s : Strategy) (session : ExchangeSession)
    (targetWeights : gmap string Value) : M (gmap string Value * option error) :=
  getPrices_in s session (map_to_list targetWeights).

Definition getQuantities (s : Strategy) (balances : gmap string Balance)
    (targetWeights : gmap string Value) : gmap string Value :=
  map_fold (fun currency _ quantities =>
              if IgnoreLocked s then
                <[currency := Total (balance_of balances currency)]> quantities
              else
                <[currency := Available (balance_of balances currency)]> quantities)
           ∅ targetWeights.

(** One turn of the loop of [generateSubmitOrders]: [None] where the turn
    ends in [continue], the order it appends otherwise. *)
Definition generateSubmitOrders_body (s : Strategy)
    (prices currentWeights : gmap string Value) (totalValue : Value)
    (currency : string) (targetWeight : Value) : option SubmitOrder :=
  if decide (currency = BaseCurrency s) then None
  else
    let symbol := currency +:+ BaseCurrency s in
    let currentWeight := index currentWeights currency in
    let currentPrice := index prices currency in
    let weightDifference := Sub targetWeight currentWeight in
    if Compare (Abs weightDifference) (Threshold s) <? 0 then None
    else
      let quantity := Div (Mul weightDifference totalValue) currentPrice in
      let '(side, quantity) :=
        if Sign quantity <? 0 then (SideTypeSell, Abs quantity)
        else (SideTypeBuy, quantity) in
      let quantity :=
        if Sign (MaxAmount s) >? 0 then
          bbgo.AdjustQuantityByMaxAmount quantity currentPrice (MaxAmount s)
        else quantity in
      Some {| Symbol := symbol; Side := side; Type_ := OrderTypeMarket;
              Quantity := quantity |}.

Definition generateSubmitOrders_in (s : Strategy)
    (prices marketValues : gmap string Value) (kvs : list (string * Value))
    : list SubmitOrder :=
  let currentWeights := Normalize marketValues in
  let totalValue := Sum marketValues in
  foldl (fun submitOrders '(currency, targetWeight) =>
           match generateSubmitOrders_body s prices currentWeights totalValue
                   currency targetWeight with
           | None => submitOrders
           | Some order => submitOrders ++ [order]
           end)
        [] kvs.

Definition generateSubmitOrders (s : Strategy)
    (prices marketValues targetWeights : gmap string Value) : list SubmitOrder :=
  generateSubmitOrders_in s prices marketValues (map_to_list targetWeights).

(** [for _, order := range orders { log.Infof(...) }] *)
Fixpoint log_orders (orders : list SubmitOrder) : M unit :=
  match orders with
  | [] => mret tt
  | order :: orders' => emit (LogGeneratedOrder order) ;; log_orders orders'
  end.

(** One tick.  [range1] and [range2] are the orders in which the loops of
    [getPrices] and of [generateSubmitOrders] visit the entries of the
    target weights. *)
Definition rebalance_in (s : Strategy) (orderExecutor : OrderExecutor)
    (session : ExchangeSession) (range1 range2 : list (string * Value)) : M unit :=
  let targetWeights := TargetWeights (set s) in
  '(prices, err) ← getPrices_in s session range1;
  match err with
  | Some _ => mret tt
  | None =>
      let balances := Balances session in
      let quantities := getQuantities s balances targetWeights in
      let marketValues := ElementwiseProduct prices quantities in
      let orders := generateSubmitOrders_in s prices marketValues range2 in
      log_orders orders ;;
      if DryRun s then mret tt
      else
        emit (CallSubmitOrders orders) ;;
        match SubmitOrders orderExecutor orders with
        | Some err => emit (LogSubmitOrderError err)
        | None => mret tt
        end
  end.

Definition rebalance (s : Strategy) (orderExecutor : OrderExecutor)
    (session : ExchangeSession) : M unit :=
  rebalance_in s orderExecutor session
    (map_to_list (TargetWeights (set s))) (map_to_list (TargetWeights (set s))).

(** An enumeration of the entries of a map, as a [range] over it may give. *)
Definition ranges {A} (m : gmap string A) (kvs : list (string * A)) : Prop :=
  kvs ≡ₚ map_to_list m.

(** The deviation the loop body compares with the threshold, and its
    quantity before the sign is looked at. *)
Definition weightDifference (currentWeights : gmap string Value)
    (currency : string) (targetWeight : Value) : Value :=
  Sub targetWeight (index currentWeights currency).

Definition quantity_raw (prices currentWeights : gmap string Value)
    (totalValue : Value) (currency : string) (targetWeight : Value) : Value :=
  Div (Mul (weightDifference currentWeights currency targetWeight) totalValue)
      (index prices currency).

(** The same configuration with another [DryRun] flag. *)
Definition with_DryRun (dryRun : bool) (s : Strategy) : Strategy :=
  {| Interval := Interval s; Window := Window s; BaseCurrency := BaseCurrency s;
     QuoteCurrencies := QuoteCurrencies s; Threshold := Threshold s;
     IgnoreLocked := IgnoreLocked s; Verbose := Verbose s; DryRun := dryRun;
     MaxAmount := MaxAmount s; set := set s |}.

(** The events of the order sink. *)
Definition submits (e : event) : bool :=
  match e with
  | CallSubmitOrders _ | LogSubmitOrderError _ => true
  | _ => false
  end.

(** The events of [getPrices]. *)
Definition resolves (e : event) : bool :=
  match e with
  | CallQueryTicker _ | CallNotify _ | LogQueryTickerError _ => true
  | _ => false
  end.

(** ** Subscribe *)

(** The calls [session.Subscribe(types.KLineChannel, symbol,
    types.SubscribeOptions{Interval: s.Interval})] that [Subscribe] makes,
    each kept as its arguments. *)
Inductive Channel : Type := KLineChannel.

Record Subscription : Type := {
  SubChannel : Channel;
  SubSymbol : string;
  SubInterval : string
}.

Definition Subscribe (s : Strategy) : list Subscription :=
  foldl (fun calls symbol =>
           calls ++ [{| SubChannel := KLineChannel; SubSymbol := symbol;
                        SubInterval := Interval s |}])
        [] (getSymbols s).

(** The price [getPrices] stores under a currency: one for the base
    currency, the last price of the ticker otherwise, none where the lookup
    fails. *)
Definition resolved_price (s : Strategy) (session : ExchangeSession)
    (currency : string) : option Value :=
  if decide (currency = BaseCurrency s) then Some One
  else match QueryTicker session (currency +:+ BaseCurrency s) with
       | inl ticker => Some (Last ticker)
       | inr _ => None
       end.

(** The lookups of a run of [getPrices] over [kvs] in which none fails. *)
Definition lookups (s : Strategy) (kvs : list (string * Value)) : list event :=
  (fun kv => CallQueryTicker (kv.1 +:+ BaseCurrency s))
    <$> filter (fun kv => kv.1 <> BaseCurrency s) kvs.

(** The log line of a failed submission. *)
Definition logs_submit_error (e : event) : bool :=
  match e with
  | LogSubmitOrderError _ => true
  | _ => false
  end.

(** ** Inputs on which the properties are tried *)

Definition weights_1_3 : gmap string Value :=
  {[ "a"%string := One; "b"%string := 3 * One ]}.

Definition weights_3_1_1_1 : gmap string Value :=
  {[ "a"%string := 3 * One; "b"%string := One; "c"%string := One;
     "d"%string := One ]}.

(** The scenario of section 8 of the spec: base currency USDT, target
    weights 0.6 for BTC and 0.4 for USDT, holdings worth 10000 USDT on
    each side, BTC at 20000 USDT. *)
Definition scenario_targetWeights : gmap string Value :=
  {[ "BTC"%string := 60000000; "USDT"%string := 40000000 ]}.

Definition scenario_prices : gmap string Value :=
  {[ "BTC"%string := 20000 * One; "USDT"%string := One ]}.

Definition scenario_marketValues : gmap string Value :=
  {[ "BTC"%string := 10000 * One; "USDT"%string := 10000 * One ]}.

(** One order in which a [range] may visit the target weights. *)
Definition scenario_range : list (string * Value) :=
  [("BTC"%string, 60000000); ("USDT"%string, 40000000)].

Definition scenario (targetWeights : gmap string Value)
    (threshold maxAmount : Value) (dryRun : bool) : Strategy :=
  {| Interval := "1h"; Window := 14; BaseCurrency := "USDT";
     QuoteCurrencies := ["BTC"%string]; Threshold := threshold;
     IgnoreLocked := false; Verbose := false; DryRun := dryRun;
     MaxAmount := maxAmount; set := {| TargetWeights := targetWeights |} |}.

(** The order of the scenario: buy 0.1 BTC. *)
Definition scenario_order : SubmitOrder :=
  {| Symbol := "BTCUSDT"; Side := SideTypeBuy; Type_ := OrderTypeMarket;
     Quantity := 10000000 |}.

(** Target weights that the holdings of the scenario already meet. *)
Definition even_targetWeights : gmap string Value :=
  {[ "BTC"%string := 50000000; "USDT"%string := 50000000 ]}.

Definition zero_order : SubmitOrder :=
  {| Symbol := "BTCUSDT"; Side := SideTypeBuy; Type_ := OrderTypeMarket;
     Quantity := 0 |}.

(** The order of the scenario under a maximum notional of 1000 USDT. *)
Definition capped_order : SubmitOrder :=
  {| Symbol := "BTCUSDT"; Side := SideTypeBuy; Type_ := OrderTypeMarket;
     Quantity := 5000000 |}.

(** Three target weights, and a session whose exchange has a ticker for
    ETHUSDT only. *)
Definition three_targetWeights : gmap string Value :=
  {[ "BTC"%string := 40000000; "ETH"%string := 20000000;
     "USDT"%string := 40000000 ]}.

Definition failing_session : ExchangeSession :=
  {| QueryTicker := fun symbol =>
       if decide (symbol = "ETHUSDT"%string) then inl {| Last := 1000 * One |}
       else inr "timeout"%string;
     Balances := ∅ |}.

(** The session of the scenario: BTC at 20000 USDT, half a BTC and 10000
    USDT available. *)
Definition scenario_session : ExchangeSession :=
  {| QueryTicker := fun symbol =>
       if decide (symbol = "BTCUSDT"%string) then inl {| Last := 20000 * One |}
       else inr "unknown symbol"%string;
     Balances := {[ "BTC"%string := {| Available := 50000000; Locked := Zero |};
                    "USDT"%string := {| Available := 10000 * One; Locked := Zero |} ]} |}.

Definition accepting_executor : OrderExecutor :=
  {| SubmitOrders := fun _ => None |}.

(** Balances that differ from those of the scenario in the locked parts
    and in a currency outside the target weights. *)
Definition other_balances : gmap string Balance :=
  {[ "BTC"%string := {| Available := 50000000; Locked := 7 * One |};
     "DOGE"%string := {| Available := 1000 * One; Locked := Zero |};
     "USDT"%string := {| Available := 10000 * One; Locked := 300 * One |} ]}.

(** Prices that differ from those of the scenario in the price of the base
    currency and in a currency outside the target weights. *)
Definition other_prices : gmap string Value :=
  {[ "BTC"%string := 20000 * One; "DOGE"%string := 7; "USDT"%string := 2 * One ]}.

Definition rejecting_executor : OrderExecutor :=
  {| SubmitOrders := fun _ => Some "rejected"%string |}.

(** * Properties *)

(** ** Maps built by a loop that stores one value per key *)

Section fold_insert.
Context {A B : Type} (g : string -> A -> B).

Lemma fold_insert_lookup (m : gmap string A) (k : string) :
  map_fold (fun k v (acc : gmap string B) => <[k := g k v]> acc) ∅ m !! k
  = g k <$> m !! k.
Proof.
  revert k.
  apply (map_fold_weak_ind
           (fun (r : gmap string B) (m : gmap string A) =>
              forall k, r !! k = g k <$> m !! k)).
  - intros k. by rewrite !lookup_empty.
  - intros i x m' r _ IH k. destruct (decide (i = k)) as [->|Hne].
    + by rewrite !lookup_insert_eq.
    + by rewrite !lookup_insert_ne, IH.
Qed.

Lemma fold_insert_dom (m : gmap string A) :
  dom (map_fold (fun k v (acc : gmap string B) => <[k := g k v]> acc) ∅ m)
  = dom m.
Proof.
  apply set_eq. intros k. rewrite !elem_of_dom, fold_insert_lookup.
  apply fmap_is_Some.
Qed.
(** The same loop run over the entries in any order a [range] may give
    builds the same map: the keys of a map are distinct. *)
Lemma foldl_insert_lookup (kvs : list (string * A)) (acc : gmap string B)
    (k : string) :
  NoDup kvs.*1 ->
  foldl (fun (acc : gmap string B) kv => <[kv.1 := g kv.1 kv.2]> acc) acc kvs !! k
  = match (list_to_map kvs : gmap string A) !! k with
    | Some v => Some (g k v)
    | None => acc !! k
    end.
Proof.
  revert acc. induction kvs as [|[c v] kvs IH]; intros acc Hnd; simpl.
  - by rewrite lookup_empty.
  - apply NoDup_cons in Hnd as [Hc Hnd]. rewrite IH by done.
    destruct (decide (c = k)) as [->|Hne].
    + rewrite !lookup_insert_eq.
      by rewrite (not_elem_of_list_to_map_1 (M := gmap string) kvs k Hc).
    + by rewrite !lookup_insert_ne.
Qed.

Lemma fold_insert_ranges (m : gmap string A) (kvs : list (string * A)) :
  kvs ≡ₚ map_to_list m ->
  foldl (fun (acc : gmap string B) kv => <[kv.1 := g kv.1 kv.2]> acc) ∅ kvs
  = map_fold (fun k v (acc : gmap string B) => <[k := g k v]> acc) ∅ m.
Proof.
  intros Hp. apply map_eq. intros k.
  assert (Hnd : NoDup kvs.*1).
  { rewrite Hp. apply NoDup_fst_map_to_list. }
  rewrite foldl_insert_lookup, fold_insert_lookup by done.
  rewrite (list_to_map_proper kvs (map_to_list m)), list_to_map_to_list by done.
  destruct (m !! k); [done|]. by rewrite lookup_empty.
Qed.
End fold_insert.

(** ** Sum *)

Lemma Sum_empty : Sum ∅ = 0.
Proof. unfold Sum. by rewrite map_fold_empty. Qed.

Lemma Sum_insert (m : gmap string Value) (k : string) (v : Value) :
  m !! k = None -> Sum (<[k := v]> m) = Sum m + v.
Proof.
  intros Hk. unfold Sum. rewrite map_fold_insert_L; [done| |done].
  intros. unfold Add. lia.
Qed.

(** X1: the order in which the loop of [Sum] visits the entries does not
    matter. *)
Lemma Sum_ranges (m : gmap string Value) (kvs : list (string * Value)) :
  kvs ≡ₚ map_to_list m ->
  foldl (fun sum kv => Add sum kv.2) NewFromFloat_0 kvs = Sum m.
Proof.
  intros Hp. unfold Sum. rewrite map_fold_foldr.
  assert (Hperm : forall l l' : list (string * Value), l ≡ₚ l' ->
            forall a, foldl (fun sum kv => Add sum kv.2) a l
                      = foldl (fun sum kv => Add sum kv.2) a l').
  { induction 1 as [|x l l' _ IH|x y l|l l' l'' _ IH1 _ IH2]; intros a; simpl.
    - done.
    - apply IH.
    - f_equal. unfold Add. lia.
    - by rewrite IH1. }
  rewrite (Hperm _ _ Hp). generalize (map_to_list m). intros l.
  assert (Hl : forall a, foldl (fun sum (kv : string * Value) => Add sum kv.2) a l
                         = a + foldr (uncurry (fun (_ : string) v sum => Add sum v)) 0 l).
  { induction l as [|[k v] l IH]; intros a; simpl; [lia|].
    rewrite IH. unfold Add. lia. }
  rewrite Hl. unfold NewFromFloat_0, Zero. lia.
Qed.

(** ** Normalize *)

Lemma Normalize_returns_new (m : gmap string Value) :
  Sum m <> One ->
  Normalize_returns m = NewMap ((fun v => Div v (Sum m)) <$> m).
Proof.
  intros Hs. unfold Normalize_returns, Float64_is_1.
  destruct (Z.eqb_spec (Sum m) One) as [|_]; [done|].
  f_equal. apply map_eq. intros k.
  by rewrite (fold_insert_lookup (fun _ v => Div v (Sum m))), lookup_fmap.
Qed.

Lemma Normalize_returns_same (m : gmap string Value) :
  Sum m = One -> Normalize_returns m = SameMap.
Proof.
  intros Hs. unfold Normalize_returns, Float64_is_1.
  by destruct (Z.eqb_spec (Sum m) One).
Qed.

Lemma Normalize_one (m : gmap string Value) : Sum m = One -> Normalize m = m.
Proof. intros Hs. unfold Normalize. by rewrite Normalize_returns_same. Qed.

Lemma Normalize_scaled (m : gmap string Value) :
  Sum m <> One -> Normalize m = (fun v => Div v (Sum m)) <$> m.
Proof. intros Hs. unfold Normalize. by rewrite Normalize_returns_new. Qed.

(** C5: [Normalize] hands back its argument itself exactly when the sum is
    exactly one, and otherwise builds a new map that holds, under every key
    of the argument, the value divided by the sum. *)
Theorem Normalize_cases (m : gmap string Value) :
  (Sum m = One /\ Normalize_returns m = SameMap /\ Normalize m = m)
  \/ (Sum m <> One
      /\ Normalize_returns m = NewMap ((fun v => Div v (Sum m)) <$> m)
      /\ Normalize m = (fun v => Div v (Sum m)) <$> m).
Proof.
  destruct (decide (Sum m = One)) as [Hs|Hs].
  - left. auto using Normalize_returns_same, Normalize_one.
  - right. auto using Normalize_returns_new, Normalize_scaled.
Qed.






(** ** ElementwiseProduct *)

(** C7: the keys of the product are the keys of [m1], and under each of
    them stands the value of [m1] times the value of [m2], zero where [m2]
    has no such key. *)
Theorem ElementwiseProduct_keys_values (m1 m2 : gmap string Value) :
  dom (ElementwiseProduct m1 m2) = dom m1
  /\ forall k, ElementwiseProduct m1 m2 !! k
               = (fun v => Mul v (default Zero (m2 !! k))) <$> m1 !! k.
Proof.
  split.
  - apply (fold_insert_dom (fun k v => Mul v (index m2 k))).
  - intros k. apply (fold_insert_lookup (fun k v => Mul v (index m2 k))).
Qed.

Lemma getQuantities_lookup (s : Strategy) (balances : gmap string Balance)
    (targetWeights : gmap string Value) (k : string) :
  getQuantities s balances targetWeights !! k
  = (fun _ => if IgnoreLocked s then Total (balance_of balances k)
              else Available (balance_of balances k)) <$> targetWeights !! k.
Proof.
  unfold getQuantities. destruct (IgnoreLocked s).
  - apply (fold_insert_lookup (fun k _ => Total (balance_of balances k))).
  - apply (fold_insert_lookup (fun k _ => Available (balance_of balances k))).
Qed.

(** ** generateSubmitOrders *)

Lemma length_symbol (c base : string) :
  String.length (c +:+ base) = (String.length c + String.length base)%nat.
Proof. induction c as [|a c IH]; simpl; [done|]. by rewrite IH. Qed.

(** The suffix [BaseCurrency] of a symbol determines the traded currency. *)
Lemma symbol_inj (c1 c2 base : string) : c1 +:+ base = c2 +:+ base -> c1 = c2.
Proof.
  intros H.
  assert (Hlen : String.length c1 = String.length c2).
  { apply (f_equal String.length) in H. rewrite !length_symbol in H. lia. }
  revert c2 H Hlen. induction c1 as [|a c1 IH]; intros [|b c2] H Hlen;
    simpl in *; try discriminate; [done|].
  injection H as -> H. f_equal. apply IH; [done|lia].
Qed.

Lemma generateSubmitOrders_body_eq (s : Strategy)
    (prices currentWeights : gmap string Value) (totalValue : Value)
    (currency : string) (targetWeight : Value) :
  generateSubmitOrders_body s prices currentWeights totalValue currency targetWeight
  = if decide (currency = BaseCurrency s) then None
    else if decide (Abs (weightDifference currentWeights currency targetWeight)
                    < Threshold s) then None
    else
      let q := quantity_raw prices currentWeights totalValue currency targetWeight in
      Some {| Symbol := currency +:+ BaseCurrency s;
              Side := if decide (q < 0) then SideTypeSell else SideTypeBuy;
              Type_ := OrderTypeMarket;
              Quantity := if decide (0 < MaxAmount s) then
                            bbgo.AdjustQuantityByMaxAmount
                              (Abs q) (index prices currency) (MaxAmount s)
                          else Abs q |}.
Proof.
  unfold generateSubmitOrders_body, quantity_raw, weightDifference.
  case_decide; [done|].
  set (wd := Sub targetWeight (index currentWeights currency)).
  set (q := Div (Mul wd totalValue) (index prices currency)).
  unfold Compare. destruct (Z.compare_spec (Abs wd) (Threshold s)) as [He|Hl|Hg];
    simpl; repeat case_decide; try lia; try done.
  all: unfold Sign; destruct (Z.ltb_spec (Z.sgn q) 0) as [Hq|Hq];
    destruct (Z.gtb_spec (Z.sgn (MaxAmount s)) 0) as [Hm|Hm];
    try lia; simpl; repeat case_decide; try lia; try done.
  all: unfold Abs; by rewrite Z.abs_eq by lia.
Qed.

Lemma generateSubmitOrders_in_omap (s : Strategy)
    (prices marketValues : gmap string Value) (kvs : list (string * Value)) :
  generateSubmitOrders_in s prices marketValues kvs
  = omap (fun kv => generateSubmitOrders_body s prices (Normalize marketValues)
                      (Sum marketValues) kv.1 kv.2) kvs.
Proof.
  unfold generateSubmitOrders_in.
  set (body := generateSubmitOrders_body s prices (Normalize marketValues)
                 (Sum marketValues)).
  assert (Hacc : forall acc : list SubmitOrder,
            foldl (fun submitOrders '(currency, targetWeight) =>
                     match body currency targetWeight with
                     | None => submitOrders
                     | Some order => submitOrders ++ [order]
                     end) acc kvs
            = acc ++ omap (fun kv => body kv.1 kv.2) kvs).
  { induction kvs as [|[c w] kvs IH]; intros acc; simpl.
    - by rewrite app_nil_r.
    - rewrite IH. destruct (body c w); [|done]. by rewrite <- app_assoc. }
  apply Hacc.
Qed.

Lemma elem_of_generateSubmitOrders_in (s : Strategy)
    (prices marketValues : gmap string Value) (kvs : list (string * Value))
    (o : SubmitOrder) :
  o ∈ generateSubmitOrders_in s prices marketValues kvs
  <-> exists c w, (c, w) ∈ kvs
        /\ generateSubmitOrders_body s prices (Normalize marketValues)
             (Sum marketValues) c w = Some o.
Proof.
  rewrite generateSubmitOrders_in_omap, list_elem_of_omap. split.
  - intros ([c w] & Hin & Hb). eauto.
  - intros (c & w & Hin & Hb). by exists (c, w).
Qed.

(** X12: whatever order the loop visits the target weights in, it builds
    the same orders, up to their order in the list. *)
Lemma generateSubmitOrders_ranges (s : Strategy)
    (prices marketValues targetWeights : gmap string Value)
    (kvs : list (string * Value)) :
  ranges targetWeights kvs ->
  generateSubmitOrders_in s prices marketValues kvs
  ≡ₚ generateSubmitOrders s prices marketValues targetWeights.
Proof.
  intros Hr. unfold generateSubmitOrders.
  rewrite !generateSubmitOrders_in_omap. by apply omap_Permutation.
Qed.

Lemma ranges_lookup {A} (m : gmap string A) (kvs : list (string * A))
    (k : string) (x : A) :
  ranges m kvs -> (k, x) ∈ kvs <-> m !! k = Some x.
Proof. intros Hr. unfold ranges in Hr. by rewrite Hr, elem_of_map_to_list. Qed.

(** The orders of a run, each with the entry it was built from. *)
Lemma generateSubmitOrders_in_inv (s : Strategy)
    (prices marketValues targetWeights : gmap string Value)
    (kvs : list (string * Value)) (o : SubmitOrder) :
  ranges targetWeights kvs ->
  o ∈ generateSubmitOrders_in s prices marketValues kvs ->
  exists c w,
    targetWeights !! c = Some w /\ c <> BaseCurrency s
    /\ Threshold s <= Abs (weightDifference (Normalize marketValues) c w)
    /\ let q := quantity_raw prices (Normalize marketValues) (Sum marketValues) c w in
       o = {| Symbol := c +:+ BaseCurrency s;
              Side := if decide (q < 0) then SideTypeSell else SideTypeBuy;
              Type_ := OrderTypeMarket;
              Quantity := if decide (0 < MaxAmount s) then
                            bbgo.AdjustQuantityByMaxAmount
                              (Abs q) (index prices c) (MaxAmount s)
                          else Abs q |}.
Proof.
  intros Hr (c & w & Hin & Hb)%elem_of_generateSubmitOrders_in.
  exists c, w. rewrite generateSubmitOrders_body_eq in Hb.
  destruct (decide (c = BaseCurrency s)) as [|Hbase]; [discriminate|].
  destruct (decide (Abs (weightDifference (Normalize marketValues) c w)
                    < Threshold s)) as [|Hge]; [discriminate|].
  injection Hb as <-.
  split; [by apply (ranges_lookup _ kvs)|]. split; [done|]. split; [lia|done].
Qed.

(** C1: for a currency of the target weights other than the base
    currency, no order is built when the absolute deviation is strictly
    below the threshold, and one is built when it is equal to the threshold
    or above it. *)
Theorem threshold_decides (s : Strategy)
    (prices marketValues targetWeights : gmap string Value)
    (kvs : list (string * Value)) (c : string) (w : Value) :
  ranges targetWeights kvs ->
  targetWeights !! c = Some w ->
  c <> BaseCurrency s ->
  (Abs (Sub w (index (Normalize marketValues) c)) < Threshold s ->
   forall o, o ∈ generateSubmitOrders_in s prices marketValues kvs ->
             Symbol o <> c +:+ BaseCurrency s)
  /\ (Threshold s <= Abs (Sub w (index (Normalize marketValues) c)) ->
      exists o, o ∈ generateSubmitOrders_in s prices marketValues kvs
                /\ Symbol o = c +:+ BaseCurrency s).
Proof.
  intros Hr Hc Hbase. split.
  - intros Hlt o Ho Hsym.
    destruct (generateSubmitOrders_in_inv _ _ _ _ _ _ Hr Ho)
      as (c' & w' & Hc' & _ & Hge & Heq).
    rewrite Heq in Hsym. simpl in Hsym. apply symbol_inj in Hsym as ->.
    rewrite Hc in Hc'. injection Hc' as <-.
    unfold weightDifference in Hge. lia.
  - intros Hge.
    pose proof (generateSubmitOrders_body_eq s prices (Normalize marketValues)
                  (Sum marketValues) c w) as Hb.
    rewrite decide_False in Hb by done.
    rewrite decide_False in Hb by (unfold weightDifference; lia).
    eexists. split.
    + apply elem_of_generateSubmitOrders_in. exists c, w.
      split; [by apply (ranges_lookup targetWeights)|exact Hb].
    + done.
Qed.

Lemma scenario_range_ranges : ranges scenario_targetWeights scenario_range.
Proof. unfold ranges. vm_compute. apply perm_swap. Defined.

(** The witness is the boundary itself: the deviation 0.1 is equal to the
    threshold and the order is built. *)
Lemma threshold_decides_witness :
  (Abs (Sub 60000000 (index (Normalize scenario_marketValues) "BTC")) < 10000000 ->
   forall o, o ∈ generateSubmitOrders_in
                   (scenario scenario_targetWeights 10000000 0 false)
                   scenario_prices scenario_marketValues scenario_range ->
             Symbol o <> "BTCUSDT"%string)
  /\ (10000000 <= Abs (Sub 60000000 (index (Normalize scenario_marketValues) "BTC")) ->
      exists o, o ∈ generateSubmitOrders_in
                      (scenario scenario_targetWeights 10000000 0 false)
                      scenario_prices scenario_marketValues scenario_range
                /\ Symbol o = "BTCUSDT"%string).
Proof.
  apply (threshold_decides (scenario scenario_targetWeights 10000000 0 false)
           scenario_prices scenario_marketValues scenario_targetWeights
           scenario_range "BTC" 60000000).
  - exact scenario_range_ranges.
  - reflexivity.
  - discriminate.
Defined.

(** The scenarios of section 8: with threshold 0.05 the order "buy 0.1 BTC"
    is built, with threshold 0.2 none is. *)
Example scenario_threshold_005 :
  generateSubmitOrders (scenario scenario_targetWeights 5000000 0 false)
    scenario_prices scenario_marketValues scenario_targetWeights
  = [scenario_order].
Proof. reflexivity. Qed.

Example scenario_threshold_02 :
  generateSubmitOrders (scenario scenario_targetWeights 20000000 0 false)
    scenario_prices scenario_marketValues scenario_targetWeights
  = [].
Proof. reflexivity. Qed.

(** C2 (as amended): every order is built from a target weight of another
    currency than the base currency; its side is sell when the raw quantity
    deviation * total value / price is negative and buy when it is zero or
    positive.  Without a cap (the maximum amount is not positive) the
    quantity of the order is the absolute value of the raw quantity: it is
    not negative, and it is positive exactly when the raw quantity is not
    zero.  With a cap the quantity of the order is what the cap makes of
    that absolute value. *)
Theorem order_side_quantity (s : Strategy)
    (prices marketValues targetWeights : gmap string Value)
    (kvs : list (string * Value)) (o : SubmitOrder) :
  ranges targetWeights kvs ->
  o ∈ generateSubmitOrders_in s prices marketValues kvs ->
  exists c w,
    targetWeights !! c = Some w
    /\ Symbol o = c +:+ BaseCurrency s
    /\ let q := Div (Mul (Sub w (index (Normalize marketValues) c))
                         (Sum marketValues))
                    (index prices c) in
       (q < 0 -> Side o = SideTypeSell)
       /\ (0 <= q -> Side o = SideTypeBuy)
       /\ (MaxAmount s <= 0 ->
           Quantity o = Abs q /\ 0 <= Quantity o /\ (0 < Quantity o <-> q <> 0))
       /\ (0 < MaxAmount s ->
           Quantity o = bbgo.AdjustQuantityByMaxAmount
                          (Abs q) (index prices c) (MaxAmount s)).
Proof.
  intros Hr Ho.
  destruct (generateSubmitOrders_in_inv _ _ _ _ _ _ Hr Ho)
    as (c & w & Hc & _ & _ & Heq).
  exists c, w. split; [done|]. rewrite Heq. simpl. split; [done|].
  fold (weightDifference (Normalize marketValues) c w).
  fold (quantity_raw prices (Normalize marketValues) (Sum marketValues) c w).
  set (q := quantity_raw _ _ _ _ _).
  split; [intros; by rewrite decide_True|].
  split; [intros; by rewrite decide_False by lia|].
  split.
  - intros Hm. rewrite decide_False by lia. unfold Abs. split; [done|]. lia.
  - intros Hm. by rewrite decide_True.
Qed.

Lemma order_side_quantity_witness :
  exists c w,
    scenario_targetWeights !! c = Some w
    /\ Symbol scenario_order = c +:+ "USDT"
    /\ let q := Div (Mul (Sub w (index (Normalize scenario_marketValues) c))
                         (Sum scenario_marketValues))
                    (index scenario_prices c) in
       (q < 0 -> Side scenario_order = SideTypeSell)
       /\ (0 <= q -> Side scenario_order = SideTypeBuy)
       /\ (0 <= 0 ->
           Quantity scenario_order = Abs q /\ 0 <= Quantity scenario_order
           /\ (0 < Quantity scenario_order <-> q <> 0))
       /\ (0 < 0 ->
           Quantity scenario_order
           = bbgo.AdjustQuantityByMaxAmount (Abs q) (index scenario_prices c) 0).
Proof.
  apply (order_side_quantity (scenario scenario_targetWeights 5000000 0 false)
           scenario_prices scenario_marketValues scenario_targetWeights
           scenario_range scenario_order).
  - exact scenario_range_ranges.
  - vm_compute. constructor.
Defined.

(** With a cap the quantity need not be positive although the raw quantity
    is: under a maximum amount of one unit the order of the scenario has
    quantity zero. *)
Example capped_to_zero :
  Validate (scenario scenario_targetWeights 5000000 1 false) = None
  /\ generateSubmitOrders (scenario scenario_targetWeights 5000000 1 false)
       scenario_prices scenario_marketValues scenario_targetWeights
     = [zero_order].
Proof. split; reflexivity. Qed.

(** C2 as the spec states it fails: a threshold of zero is a valid
    configuration, and when the holdings already meet the target weights
    the deviation zero is not below it, so an order of quantity zero is
    built. *)
Lemma zero_quantity_order :
  Validate (scenario even_targetWeights 0 0 false) = None
  /\ zero_order ∈ generateSubmitOrders (scenario even_targetWeights 0 0 false)
                    scenario_prices scenario_marketValues even_targetWeights
  /\ ~ 0 < Quantity zero_order.
Proof.
  split; [reflexivity|]. split.
  - vm_compute. constructor.
  - simpl. lia.
Qed.

(** ** The cap on the notional of an order *)

Lemma AdjustQuantityByMaxAmount_notional (quantity currentPrice maxAmount : Value) :
  0 <= quantity -> 0 < maxAmount ->
  bbgo.AdjustQuantityByMaxAmount quantity currentPrice maxAmount * currentPrice
  <= maxAmount * DefaultPow.
Proof.
  intros Hq Hm. unfold bbgo.AdjustQuantityByMaxAmount, Div.
  assert (Ha : 0 <= maxAmount * DefaultPow) by (unfold DefaultPow; lia).
  set (a := maxAmount * DefaultPow) in *.
  destruct (Z.lt_trichotomy currentPrice 0) as [Hp|[->|Hp]].
  - pose proof (Z.quot_rem' a currentPrice) as Hqr.
    pose proof (Z.rem_nonneg a currentPrice ltac:(lia) Ha) as Hr.
    pose proof (Z.rem_bound_abs a currentPrice ltac:(lia)) as Hb.
    assert (Hle : Z.quot a currentPrice <= 0) by nia.
    rewrite Z.min_r by lia. lia.
  - lia.
  - pose proof (Z.quot_rem' a currentPrice) as Hqr.
    pose proof (Z.rem_nonneg a currentPrice ltac:(lia) Ha) as Hr.
    pose proof (Z.le_min_r quantity (Z.quot a currentPrice)) as Hmin.
    nia.
Qed.

Lemma Mul_le_of_notional (quantity currentPrice maxAmount : Value) :
  quantity * currentPrice <= maxAmount * DefaultPow ->
  Mul quantity currentPrice <= maxAmount.
Proof.
  intros H. unfold Mul.
  rewrite <- (Z.quot_mul maxAmount DefaultPow) by (unfold DefaultPow; lia).
  apply Z.quot_le_mono; [unfold DefaultPow; lia|done].
Qed.

(** C3: with a positive maximum amount the notional quantity * price of an
    order does not exceed it, exactly and as the fixed-point product, and
    the capped quantity is not above the uncapped one; with maximum amount
    zero the quantity is the uncapped one. *)
Theorem order_capped (s : Strategy)
    (prices marketValues targetWeights : gmap string Value)
    (kvs : list (string * Value)) (o : SubmitOrder) :
  ranges targetWeights kvs ->
  o ∈ generateSubmitOrders_in s prices marketValues kvs ->
  exists c w,
    targetWeights !! c = Some w
    /\ Symbol o = c +:+ BaseCurrency s
    /\ let uncapped := Abs (Div (Mul (Sub w (index (Normalize marketValues) c))
                                     (Sum marketValues))
                                (index prices c)) in
       (0 < MaxAmount s ->
        Quantity o * index prices c <= MaxAmount s * DefaultPow
        /\ Mul (Quantity o) (index prices c) <= MaxAmount s
        /\ Quantity o <= uncapped)
       /\ (MaxAmount s = 0 -> Quantity o = uncapped).
Proof.
  intros Hr Ho.
  destruct (generateSubmitOrders_in_inv _ _ _ _ _ _ Hr Ho)
    as (c & w & Hc & _ & _ & Heq).
  exists c, w. split; [done|]. rewrite Heq. simpl. split; [done|].
  fold (weightDifference (Normalize marketValues) c w).
  fold (quantity_raw prices (Normalize marketValues) (Sum marketValues) c w).
  set (q := quantity_raw _ _ _ _ _). split.
  - intros Hm. rewrite decide_True by done.
    assert (Hn : bbgo.AdjustQuantityByMaxAmount (Abs q) (index prices c) (MaxAmount s)
                 * index prices c <= MaxAmount s * DefaultPow).
    { apply AdjustQuantityByMaxAmount_notional; [unfold Abs; lia|done]. }
    split; [done|]. split; [by apply Mul_le_of_notional|].
    unfold bbgo.AdjustQuantityByMaxAmount. lia.
  - intros Hm. rewrite decide_False by lia. done.
Qed.

Lemma order_capped_witness :
  exists c w,
    scenario_targetWeights !! c = Some w
    /\ Symbol capped_order = c +:+ "USDT"
    /\ let uncapped :=
         Abs (Div (Mul (Sub w (index (Normalize scenario_marketValues) c))
                       (Sum scenario_marketValues))
                  (index scenario_prices c)) in
       (0 < 1000 * One ->
        Quantity capped_order * index scenario_prices c <= 1000 * One * DefaultPow
        /\ Mul (Quantity capped_order) (index scenario_prices c) <= 1000 * One
        /\ Quantity capped_order <= uncapped)
       /\ (1000 * One = 0 -> Quantity capped_order = uncapped).
Proof.
  apply (order_capped (scenario scenario_targetWeights 5000000 (1000 * One) false)
           scenario_prices scenario_marketValues scenario_targetWeights
           scenario_range capped_order).
  - exact scenario_range_ranges.
  - vm_compute. constructor.
Defined.

(** C9: every order is built for a currency of the target weights that is
    not the base currency, under the symbol currency + base currency; in
    particular no symbol is base currency + base currency. *)
Theorem no_order_for_base (s : Strategy)
    (prices marketValues targetWeights : gmap string Value)
    (kvs : list (string * Value)) (o : SubmitOrder) :
  ranges targetWeights kvs ->
  o ∈ generateSubmitOrders_in s prices marketValues kvs ->
  (exists c, c ∈ dom targetWeights /\ c <> BaseCurrency s
             /\ Symbol o = c +:+ BaseCurrency s)
  /\ Symbol o <> BaseCurrency s +:+ BaseCurrency s.
Proof.
  intros Hr Ho.
  destruct (generateSubmitOrders_in_inv _ _ _ _ _ _ Hr Ho)
    as (c & w & Hc & Hbase & _ & Heq).
  rewrite Heq. simpl. split.
  - exists c. split; [|done]. apply elem_of_dom. by exists w.
  - intros Hsym. by apply symbol_inj in Hsym.
Qed.

Lemma no_order_for_base_witness :
  (exists c, c ∈ dom scenario_targetWeights /\ c <> "USDT"%string
             /\ Symbol scenario_order = c +:+ "USDT")
  /\ Symbol scenario_order <> "USDT" +:+ "USDT".
Proof.
  apply (no_order_for_base (scenario scenario_targetWeights 5000000 0 false)
           scenario_prices scenario_marketValues scenario_targetWeights
           scenario_range scenario_order).
  - exact scenario_range_ranges.
  - vm_compute. constructor.
Defined.

(** ** The calls of a tick *)

Lemma bind_eq {A B} (m : M A) (f : A -> M B) :
  m ≫= f = (result (f (result m)), trace m ++ trace (f (result m))).
Proof.
  destruct m as [a t1]. unfold mbind, M_bind, result, trace. simpl.
  by destruct (f a).
Qed.

Lemma getPrices_loop_app (s : Strategy) (session : ExchangeSession)
    (l1 l2 : list (string * Value)) (prices0 prices1 : gmap string Value)
    (t : list event) :
  getPrices_loop s session l1 prices0 = ((prices1, None), t) ->
  getPrices_loop s session (l1 ++ l2) prices0
  = (result (getPrices_loop s session l2 prices1),
     t ++ trace (getPrices_loop s session l2 prices1)).
Proof.
  revert prices0 t. induction l1 as [|[c w] l1 IH]; intros prices0 t H; simpl in *.
  - injection H as <- <-. by destruct (getPrices_loop s session l2 prices0).
  - case_decide; [by apply IH|].
    destruct (QueryTicker session (c +:+ BaseCurrency s)) as [ticker|err];
      [|discriminate].
    destruct (getPrices_loop s session l1 (<[c:=Last ticker]> prices0))
      as [r t0] eqn:Hl1.
    injection H as -> <-. by rewrite (IH _ _ Hl1).
Qed.

Lemma getPrices_loop_fails (s : Strategy) (session : ExchangeSession)
    (c : string) (w : Value) (l2 : list (string * Value))
    (prices : gmap string Value) (err : error) :
  c <> BaseCurrency s ->
  QueryTicker session (c +:+ BaseCurrency s) = inr err ->
  getPrices_loop s session ((c, w) :: l2) prices
  = ((prices, Some err),
     [CallQueryTicker (c +:+ BaseCurrency s); CallNotify err;
      LogQueryTickerError err]).
Proof.
  intros Hbase Hq. simpl. rewrite decide_False by done. by rewrite Hq.
Qed.

Lemma getPrices_loop_resolves (s : Strategy) (session : ExchangeSession)
    (kvs : list (string * Value)) (prices : gmap string Value) (e : event) :
  e ∈ trace (getPrices_loop s session kvs prices) -> resolves e = true.
Proof.
  revert prices. induction kvs as [|[c w] kvs IH]; intros prices; simpl.
  - intros []%elem_of_nil.
  - case_decide; [apply IH|].
    destruct (QueryTicker session (c +:+ BaseCurrency s)) as [ticker|err].
    + specialize (IH (<[c:=Last ticker]> prices)).
      destruct (getPrices_loop s session kvs (<[c:=Last ticker]> prices))
        as [r t0].
      intros [->|Hin]%elem_of_cons; [done|]. by apply IH.
    + intros [->|[->|[->|[]%elem_of_nil]%elem_of_cons]%elem_of_cons]%elem_of_cons;
        done.
Qed.

Lemma union_singleton_middle (X Y : gset string) (c : string) :
  {[c]} ∪ X ∪ Y = X ∪ ({[c]} ∪ Y).
Proof. by rewrite (comm_L (∪) {[c]} X), <- (assoc_L (∪)). Qed.

(** The prices of a run without failure are those of the entries it
    visited. *)
Lemma getPrices_loop_dom (s : Strategy) (session : ExchangeSession)
    (kvs : list (string * Value)) (prices0 prices : gmap string Value)
    (t : list event) :
  getPrices_loop s session kvs prices0 = ((prices, None), t) ->
  dom prices = dom prices0 ∪ list_to_set kvs.*1.
Proof.
  revert prices0 t. induction kvs as [|[c w] kvs IH]; intros prices0 t H; simpl in *.
  - injection H as <- _. by rewrite (right_id_L ∅ (∪)).
  - case_decide.
    + apply IH in H. rewrite H, dom_insert_L. apply union_singleton_middle.
    + destruct (QueryTicker session (c +:+ BaseCurrency s)) as [ticker|err];
        [|discriminate].
      destruct (getPrices_loop s session kvs (<[c:=Last ticker]> prices0))
        as [r t0] eqn:Hl. injection H as -> _.
      apply IH in Hl. rewrite Hl, dom_insert_L. apply union_singleton_middle.
Qed.

(** A tick whose prices are not resolved does nothing more. *)
Lemma rebalance_in_price_error (s : Strategy) (orderExecutor : OrderExecutor)
    (session : ExchangeSession) (range1 range2 : list (string * Value))
    (prices : gmap string Value) (err : error) (t : list event) :
  getPrices_in s session range1 = ((prices, Some err), t) ->
  rebalance_in s orderExecutor session range1 range2 = (tt, t).
Proof.
  intros H. unfold rebalance_in. rewrite bind_eq, H. simpl.
  by rewrite app_nil_r.
Qed.

(** C4: when the lookup for a currency fails after the lookups before it
    succeeded, [getPrices] returns the prices filled so far together with
    the error, its last calls are the failed lookup and its report, the
    currencies after it are not looked up, and the tick ends there: it
    reports and submits no order. *)
Theorem getPrices_fails_fast (s : Strategy) (orderExecutor : OrderExecutor)
    (session : ExchangeSession) (l1 l2 range2 : list (string * Value))
    (c : string) (w : Value) (prices : gmap string Value) (t : list event)
    (err : error) :
  getPrices_in s session l1 = ((prices, None), t) ->
  c <> BaseCurrency s ->
  QueryTicker session (c +:+ BaseCurrency s) = inr err ->
  let t' := t ++ [CallQueryTicker (c +:+ BaseCurrency s); CallNotify err;
                  LogQueryTickerError err] in
  getPrices_in s session (l1 ++ (c, w) :: l2) = ((prices, Some err), t')
  /\ dom prices = list_to_set l1.*1
  /\ rebalance_in s orderExecutor session (l1 ++ (c, w) :: l2) range2 = (tt, t')
  /\ forall e, e ∈ t' ->
       (forall orders, e <> CallSubmitOrders orders)
       /\ (forall order, e <> LogGeneratedOrder order).
Proof.
  intros H1 Hbase Hq t'.
  assert (Hp : getPrices_in s session (l1 ++ (c, w) :: l2) = ((prices, Some err), t')).
  { unfold getPrices_in in *.
    rewrite (getPrices_loop_app _ _ _ _ _ _ _ H1).
    by rewrite (getPrices_loop_fails _ _ _ _ _ _ _ Hbase Hq). }
  split; [done|]. split.
  { apply getPrices_loop_dom in H1. by rewrite H1, dom_empty_L, (left_id_L ∅ (∪)). }
  split; [by apply (rebalance_in_price_error _ _ _ _ _ prices err)|].
  intros e He.
  assert (Hres : resolves e = true).
  { apply (getPrices_loop_resolves s session (l1 ++ (c, w) :: l2) ∅).
    fold (getPrices_in s session (l1 ++ (c, w) :: l2)). by rewrite Hp. }
  split; intros ? ->; discriminate.
Qed.

Lemma getPrices_fails_fast_witness :
  getPrices_in (scenario three_targetWeights 5000000 0 false) failing_session
    ([("USDT"%string, 40000000)] ++ ("BTC"%string, 40000000)
       :: [("ETH"%string, 20000000)])
  = (({[ "USDT"%string := One ]}, Some "timeout"%string),
     [] ++ [CallQueryTicker ("BTC" +:+ "USDT"); CallNotify "timeout";
            LogQueryTickerError "timeout"])
  /\ dom ({[ "USDT"%string := One ]} : gmap string Value)
     = list_to_set [("USDT"%string, 40000000)].*1
  /\ rebalance_in (scenario three_targetWeights 5000000 0 false)
       accepting_executor failing_session
       ([("USDT"%string, 40000000)] ++ ("BTC"%string, 40000000)
          :: [("ETH"%string, 20000000)])
       (map_to_list three_targetWeights)
     = (tt, [] ++ [CallQueryTicker ("BTC" +:+ "USDT"); CallNotify "timeout";
                   LogQueryTickerError "timeout"])
  /\ forall e,
       e ∈ [] ++ [CallQueryTicker ("BTC" +:+ "USDT"); CallNotify "timeout"%string;
                  LogQueryTickerError "timeout"%string] ->
       (forall orders, e <> CallSubmitOrders orders)
       /\ (forall order, e <> LogGeneratedOrder order).
Proof.
  apply (getPrices_fails_fast (scenario three_targetWeights 5000000 0 false)
           accepting_executor failing_session
           [("USDT"%string, 40000000)] [("ETH"%string, 20000000)]
           (map_to_list three_targetWeights) "BTC" 40000000
           {[ "USDT"%string := One ]} [] "timeout"%string).
  - reflexivity.
  - discriminate.
  - reflexivity.
Defined.

Lemma log_orders_eq (orders : list SubmitOrder) :
  log_orders orders = (tt, LogGeneratedOrder <$> orders).
Proof.
  induction orders as [|o orders IH]; simpl; [done|]. by rewrite IH.
Qed.

Lemma filter_all {A} (P : A -> Prop) `{forall x, Decision (P x)} (l : list A) :
  (forall x, x ∈ l -> P x) -> filter P l = l.
Proof.
  induction l as [|x l IH]; intros Hall; [done|].
  rewrite filter_cons_True by (apply Hall; left).
  f_equal. apply IH. intros y Hy. apply Hall. by right.
Qed.

Lemma getPrices_in_not_submits (s : Strategy) (session : ExchangeSession)
    (kvs : list (string * Value)) (e : event) :
  e ∈ trace (getPrices_in s session kvs) -> submits e = false.
Proof. intros Hr%getPrices_loop_resolves. by destruct e. Qed.

(** The calls of a tick whose prices are resolved. *)
Lemma rebalance_in_trace (s : Strategy) (orderExecutor : OrderExecutor)
    (session : ExchangeSession) (range1 range2 : list (string * Value))
    (prices : gmap string Value) (t : list event) :
  getPrices_in s session range1 = ((prices, None), t) ->
  let orders :=
    generateSubmitOrders_in s prices
      (ElementwiseProduct prices
         (getQuantities s (Balances session) (TargetWeights (set s))))
      range2 in
  trace (rebalance_in s orderExecutor session range1 range2)
  = t ++ (LogGeneratedOrder <$> orders)
      ++ (if DryRun s then []
          else CallSubmitOrders orders
                 :: match SubmitOrders orderExecutor orders with
                    | Some err => [LogSubmitOrderError err]
                    | None => []
                    end).
Proof.
  intros H orders. unfold rebalance_in. rewrite bind_eq, H. simpl.
  fold orders. rewrite bind_eq, log_orders_eq. simpl.
  destruct (DryRun s); [done|].
  by destruct (SubmitOrders orderExecutor orders).
Qed.

(** C10: a tick whose prices are resolved and that is no dry run calls
    [SubmitOrders], once, after it reported the orders, with the list of
    orders it built, whether that list is empty or not. *)
Theorem rebalance_submits (s : Strategy) (orderExecutor : OrderExecutor)
    (session : ExchangeSession) (range1 range2 : list (string * Value))
    (prices : gmap string Value) (t : list event) :
  DryRun s = false ->
  getPrices_in s session range1 = ((prices, None), t) ->
  let orders :=
    generateSubmitOrders_in s prices
      (ElementwiseProduct prices
         (getQuantities s (Balances session) (TargetWeights (set s))))
      range2 in
  trace (rebalance_in s orderExecutor session range1 range2)
  = t ++ (LogGeneratedOrder <$> orders)
      ++ CallSubmitOrders orders
           :: match SubmitOrders orderExecutor orders with
              | Some err => [LogSubmitOrderError err]
              | None => []
              end
  /\ CallSubmitOrders orders ∈ trace (rebalance_in s orderExecutor session range1 range2)
  /\ (forall e, e ∈ t ++ (LogGeneratedOrder <$> orders) -> submits e = false).
Proof.
  intros Hdry H orders.
  pose proof (rebalance_in_trace s orderExecutor session range1 range2 prices t H) as Ht.
  simpl in Ht. fold orders in Ht. rewrite Hdry in Ht.
  split; [done|]. split.
  - rewrite Ht, !elem_of_app. right. right. left.
  - intros e [He|He]%elem_of_app.
    + apply (getPrices_in_not_submits s session range1). by rewrite H.
    + apply list_elem_of_fmap in He as (o & -> & _). done.
Qed.

(** The witness is a tick that builds no order: the threshold 0.2 is above
    the deviation of the scenario. *)
Lemma rebalance_submits_witness :
  trace (rebalance_in (scenario scenario_targetWeights 20000000 0 false)
           accepting_executor scenario_session scenario_range scenario_range)
  = [CallQueryTicker "BTCUSDT"] ++ (LogGeneratedOrder <$> [])
      ++ CallSubmitOrders []
           :: match SubmitOrders accepting_executor [] with
              | Some err => [LogSubmitOrderError err]
              | None => []
              end
  /\ CallSubmitOrders []
       ∈ trace (rebalance_in (scenario scenario_targetWeights 20000000 0 false)
                  accepting_executor scenario_session scenario_range scenario_range)
  /\ (forall e, e ∈ [CallQueryTicker "BTCUSDT"] ++ (LogGeneratedOrder <$> []) ->
                submits e = false).
Proof.
  apply (rebalance_submits (scenario scenario_targetWeights 20000000 0 false)
           accepting_executor scenario_session scenario_range scenario_range
           scenario_prices [CallQueryTicker "BTCUSDT"]).
  - reflexivity.
  - reflexivity.
Defined.

(** [getPrices] does not read the [DryRun] flag. *)
Lemma getPrices_in_with_DryRun (dryRun : bool) (s : Strategy)
    (session : ExchangeSession) (kvs : list (string * Value)) :
  getPrices_in (with_DryRun dryRun s) session kvs = getPrices_in s session kvs.
Proof.
  unfold getPrices_in. generalize (∅ : gmap string Value).
  induction kvs as [|[c w] kvs IH]; intros prices; simpl; [done|].
  case_decide; [apply IH|].
  destruct (QueryTicker session (c +:+ BaseCurrency s)); [|done].
  by rewrite IH.
Qed.

(** C8: a dry run builds the same orders as a run that is none, makes the
    same calls but those on the order sink, and does not call
    [SubmitOrders]. *)
Theorem dry_run_same_orders (s : Strategy) (orderExecutor : OrderExecutor)
    (session : ExchangeSession) (range1 range2 : list (string * Value)) :
  (forall prices marketValues kvs,
     generateSubmitOrders_in (with_DryRun true s) prices marketValues kvs
     = generateSubmitOrders_in (with_DryRun false s) prices marketValues kvs)
  /\ trace (rebalance_in (with_DryRun true s) orderExecutor session range1 range2)
     = filter (fun e => submits e = false)
         (trace (rebalance_in (with_DryRun false s) orderExecutor session
                   range1 range2))
  /\ (forall orders,
        CallSubmitOrders orders
          ∉ trace (rebalance_in (with_DryRun true s) orderExecutor session
                     range1 range2)).
Proof.
  split; [done|].
  assert (Hdry : trace (rebalance_in (with_DryRun true s) orderExecutor session
                          range1 range2)
                 = filter (fun e => submits e = false)
                     (trace (rebalance_in (with_DryRun false s) orderExecutor
                               session range1 range2))).
  { destruct (getPrices_in s session range1) as [[prices [err|]] t] eqn:Hp;
      pose proof Hp as Hp1; pose proof Hp as Hp2;
      rewrite <- (getPrices_in_with_DryRun true) in Hp1;
      rewrite <- (getPrices_in_with_DryRun false) in Hp2.
    - rewrite (rebalance_in_price_error _ _ _ _ _ prices err t Hp1).
      rewrite (rebalance_in_price_error _ _ _ _ _ prices err t Hp2).
      simpl. symmetry. apply filter_all. intros e He.
      apply (getPrices_in_not_submits s session range1). by rewrite Hp.
    - rewrite (rebalance_in_trace _ _ _ _ _ prices t Hp1).
      rewrite (rebalance_in_trace _ _ _ _ _ prices t Hp2).
      simpl. rewrite app_nil_r, !filter_app.
      rewrite (filter_all _ t), (filter_all _ (LogGeneratedOrder <$> _)).
      + rewrite filter_cons_False by done.
        destruct (SubmitOrders orderExecutor _); simpl;
          [rewrite filter_cons_False by done|]; by rewrite filter_nil, app_nil_r.
      + by intros e (o & -> & _)%list_elem_of_fmap.
      + intros e He. apply (getPrices_in_not_submits s session range1).
        by rewrite Hp. }
  split; [done|].
  intros orders Hin. rewrite Hdry in Hin.
  apply list_elem_of_filter in Hin as [Hs _]. discriminate.
Qed.

(** * Further properties of the code *)

(** ** Sum, Normalize, ElementwiseProduct *)

Lemma Sum_ranges_witness :
  foldl (fun sum kv => Add sum kv.2) NewFromFloat_0 scenario_range
  = Sum scenario_targetWeights.
Proof. apply (Sum_ranges scenario_targetWeights scenario_range), perm_swap. Defined.

Lemma Sum_delete (m : gmap string Value) (k : string) (x : Value) :
  m !! k = Some x -> Sum m = Sum (delete k m) + x.
Proof.
  intros Hk. rewrite <- (insert_delete_id m k x Hk) at 1.
  apply Sum_insert, lookup_delete_eq.
Qed.

(** X2: storing a value under a key changes the sum by the difference to
    the value the key had, zero for a new key. *)
Theorem Sum_update (m : gmap string Value) (k : string) (v : Value) :
  Sum (<[k := v]> m) = Sum m - index m k + v.
Proof.
  unfold index. destruct (m !! k) as [x|] eqn:Hk; simpl.
  - rewrite (Sum_delete m k x Hk), <- insert_delete_eq.
    rewrite Sum_insert by apply lookup_delete_eq. lia.
  - rewrite Sum_insert by done. unfold Zero. lia.
Qed.

(** X3: [Normalize] keeps the keys of its argument. *)
Theorem Normalize_dom (m : gmap string Value) : dom (Normalize m) = dom m.
Proof.
  destruct (decide (Sum m = One)) as [Hs|Hs].
  - by rewrite Normalize_one.
  - rewrite Normalize_scaled by done. apply dom_fmap_L.
Qed.

Lemma Sum_nonneg (m : gmap string Value) :
  (forall k v, m !! k = Some v -> 0 <= v) ->
  0 <= Sum m /\ forall k v, m !! k = Some v -> v <= Sum m.
Proof.
  induction m as [|k v m Hk IH] using map_ind; intros Hnn.
  - rewrite Sum_empty. split; [lia|]. intros k v. by rewrite lookup_empty.
  - rewrite Sum_insert by done.
    assert (Hv : 0 <= v) by (apply (Hnn k); by rewrite lookup_insert_eq).
    destruct IH as [Hs Hle].
    { intros k' v' Hk'. apply (Hnn k'). rewrite lookup_insert_ne; [done|].
      intros ->. pose proof (eq_trans (eq_sym Hk) Hk'). discriminate. }
    split; [lia|]. intros k' v'. destruct (decide (k = k')) as [->|Hne].
    + rewrite lookup_insert_eq. intros [= ->]. lia.
    + rewrite lookup_insert_ne by done. intros Hk'%Hle. lia.
Qed.

Lemma Sum_Div_below (d : Value) (m : gmap string Value) :
  0 < d -> (forall k v, m !! k = Some v -> 0 <= v) ->
  d * Sum ((fun v => Div v d) <$> m) <= Sum m * DefaultPow.
Proof.
  intros Hd. induction m as [|k v m Hk IH] using map_ind; intros Hnn.
  - rewrite fmap_empty, Sum_empty. lia.
  - rewrite fmap_insert, !Sum_insert by (done || by rewrite lookup_fmap, Hk).
    assert (Hv : 0 <= v) by (apply (Hnn k); by rewrite lookup_insert_eq).
    assert (IH' : d * Sum ((fun v => Div v d) <$> m) <= Sum m * DefaultPow).
    { apply IH. intros k' v' Hk'. apply (Hnn k'). rewrite lookup_insert_ne; [done|].
      intros ->. pose proof (eq_trans (eq_sym Hk) Hk'). discriminate. }
    unfold Div in *.
    pose proof (Z.quot_rem' (v * DefaultPow) d) as Hqr.
    assert (Hr : 0 <= Z.rem (v * DefaultPow) d).
    { apply Z.rem_nonneg; [lia|]. unfold DefaultPow. lia. }
    rewrite Z.mul_add_distr_l, Z.mul_add_distr_r. lia.
Qed.

(** X4: the normalized values of a map without negative values and with a
    positive sum are fractions, between zero and one, and their sum is
    not above one. *)
Theorem Normalize_fractions (m : gmap string Value) :
  (forall k v, m !! k = Some v -> 0 <= v) ->
  0 < Sum m ->
  (forall k w, Normalize m !! k = Some w -> 0 <= w <= One)
  /\ Sum (Normalize m) <= One.
Proof.
  intros Hnn Hpos. destruct (Sum_nonneg m Hnn) as [_ Hle].
  destruct (decide (Sum m = One)) as [Hs|Hs].
  - rewrite Normalize_one by done. split; [|lia].
    intros k w Hk. specialize (Hnn k w Hk). specialize (Hle k w Hk). lia.
  - rewrite Normalize_scaled by done. split.
    + intros k w. rewrite lookup_fmap.
      destruct (m !! k) as [v|] eqn:Hk; [|done]. intros [= <-].
      specialize (Hnn k v Hk). specialize (Hle k v Hk). unfold Div, One.
      assert (HP : 0 < DefaultPow) by (unfold DefaultPow; lia).
      split.
      * apply Z.quot_pos; nia.
      * rewrite <- (Z.quot_mul DefaultPow (Sum m)) at 2 by lia.
        apply Z.quot_le_mono; nia.
    + pose proof (Sum_Div_below (Sum m) m Hpos Hnn) as Hb. unfold One. nia.
Qed.

Lemma Normalize_fractions_witness :
  (forall k w, Normalize weights_3_1_1_1 !! k = Some w -> 0 <= w <= One)
  /\ Sum (Normalize weights_3_1_1_1) <= One.
Proof.
  apply (Normalize_fractions weights_3_1_1_1).
  - intros k v Hk.
    apply elem_of_map_to_list in Hk. vm_compute in Hk.
    repeat (apply elem_of_cons in Hk as [[= -> ->]|Hk]; [lia|]).
    by apply elem_of_nil in Hk.
  - reflexivity.
Defined.

Lemma ElementwiseProduct_lookup (m1 m2 : gmap string Value) (k : string) :
  ElementwiseProduct m1 m2 !! k = (fun v => Mul v (index m2 k)) <$> m1 !! k.
Proof. apply (fold_insert_lookup (fun k v => Mul v (index m2 k))). Qed.

(** X5: on maps with the same keys the product does not depend on the
    order of its arguments. *)
Theorem ElementwiseProduct_comm (m1 m2 : gmap string Value) :
  dom m1 = dom m2 -> ElementwiseProduct m1 m2 = ElementwiseProduct m2 m1.
Proof.
  intros Hdom. apply map_eq. intros k. rewrite !ElementwiseProduct_lookup.
  unfold index.
  destruct (m1 !! k) as [v1|] eqn:H1, (m2 !! k) as [v2|] eqn:H2; simpl.
  - unfold Mul. by rewrite Z.mul_comm.
  - apply (elem_of_dom_2 m1) in H1. rewrite Hdom in H1.
    apply elem_of_dom in H1 as [? H1]. by rewrite H2 in H1.
  - apply (elem_of_dom_2 m2) in H2. rewrite <- Hdom in H2.
    apply elem_of_dom in H2 as [? H2]. by rewrite H1 in H2.
  - done.
Qed.

Lemma ElementwiseProduct_comm_witness :
  ElementwiseProduct scenario_prices scenario_marketValues
  = ElementwiseProduct scenario_marketValues scenario_prices.
Proof. apply (ElementwiseProduct_comm scenario_prices scenario_marketValues). reflexivity. Defined.

(** ** getQuantities *)

(** X6: [getQuantities] has a quantity for exactly the currencies of the
    target weights: the available balance, or with [IgnoreLocked] the sum
    of the available and the locked balance, and zero for a currency
    without balance. *)
Theorem getQuantities_keys_values (s : Strategy) (balances : gmap string Balance)
    (targetWeights : gmap string Value) :
  dom (getQuantities s balances targetWeights) = dom targetWeights
  /\ (forall k b, k ∈ dom targetWeights -> balances !! k = Some b ->
        getQuantities s balances targetWeights !! k
        = Some (if IgnoreLocked s then Available b + Locked b else Available b))
  /\ (forall k, k ∈ dom targetWeights -> balances !! k = None ->
        getQuantities s balances targetWeights !! k = Some 0).
Proof.
  split; [|split].
  - apply set_eq. intros k. rewrite !elem_of_dom, getQuantities_lookup.
    apply fmap_is_Some.
  - intros k b [w Hw]%elem_of_dom Hb.
    rewrite getQuantities_lookup, Hw. unfold balance_of. rewrite Hb. simpl.
    by destruct (IgnoreLocked s).
  - intros k [w Hw]%elem_of_dom Hb.
    rewrite getQuantities_lookup, Hw. unfold balance_of. rewrite Hb. simpl.
    by destruct (IgnoreLocked s).
Qed.

(** X7: the quantities depend on the target weights through their keys
    only, and on the balances through the balances of these keys only:
    through their totals with [IgnoreLocked], through their available parts
    without. *)
Theorem getQuantities_frame (s : Strategy) (balances balances' : gmap string Balance)
    (targetWeights targetWeights' : gmap string Value) :
  dom targetWeights = dom targetWeights' ->
  (forall k, k ∈ dom targetWeights ->
     if IgnoreLocked s then
       Total (balance_of balances k) = Total (balance_of balances' k)
     else Available (balance_of balances k) = Available (balance_of balances' k)) ->
  getQuantities s balances targetWeights = getQuantities s balances' targetWeights'.
Proof.
  intros Hdom Hb. apply map_eq. intros k. rewrite !getQuantities_lookup.
  destruct (targetWeights !! k) as [w|] eqn:Hw.
  - assert (Hk : k ∈ dom targetWeights) by (by apply elem_of_dom).
    specialize (Hb k Hk). rewrite Hdom in Hk.
    apply elem_of_dom in Hk as [w' ->]. simpl.
    destruct (IgnoreLocked s); by rewrite Hb.
  - assert (Hk : k ∉ dom targetWeights) by (by apply not_elem_of_dom).
    rewrite Hdom in Hk. apply not_elem_of_dom in Hk. by rewrite Hk.
Qed.

Lemma getQuantities_frame_witness :
  getQuantities (scenario scenario_targetWeights 5000000 0 false)
    (Balances scenario_session) scenario_targetWeights
  = getQuantities (scenario scenario_targetWeights 5000000 0 false)
      other_balances even_targetWeights.
Proof.
  apply (getQuantities_frame (scenario scenario_targetWeights 5000000 0 false)
           (Balances scenario_session) other_balances
           scenario_targetWeights even_targetWeights).
  - reflexivity.
  - intros k Hk. simpl.
    apply elem_of_dom in Hk as [w Hk]. apply elem_of_map_to_list in Hk.
    vm_compute in Hk.
    repeat (apply elem_of_cons in Hk as [[= -> ->]|Hk]; [reflexivity|]).
    by apply elem_of_nil in Hk.
Defined.

(** ** getPrices *)

Lemma lookups_cons_base (s : Strategy) (c : string) (w : Value)
    (kvs : list (string * Value)) :
  c = BaseCurrency s -> lookups s ((c, w) :: kvs) = lookups s kvs.
Proof. intros Hc. unfold lookups. by rewrite filter_cons_False by (simpl; auto). Qed.

Lemma lookups_cons (s : Strategy) (c : string) (w : Value)
    (kvs : list (string * Value)) :
  c <> BaseCurrency s ->
  lookups s ((c, w) :: kvs) = CallQueryTicker (c +:+ BaseCurrency s) :: lookups s kvs.
Proof. intros Hc. unfold lookups. by rewrite filter_cons_True by done. Qed.

Lemma elem_of_lookups (s : Strategy) (kvs : list (string * Value)) (e : event) :
  e ∈ lookups s kvs
  <-> exists c, c ∈ kvs.*1 /\ c <> BaseCurrency s
                /\ e = CallQueryTicker (c +:+ BaseCurrency s).
Proof.
  unfold lookups. rewrite list_elem_of_fmap. split.
  - intros ([c w] & -> & [Hne Hin]%list_elem_of_filter). exists c.
    split; [|done]. apply list_elem_of_fmap. by exists (c, w).
  - intros (c & ([c' w] & -> & Hin)%list_elem_of_fmap & Hne & ->).
    exists (c', w). split; [done|]. by apply list_elem_of_filter.
Qed.

Lemma NoDup_lookups (s : Strategy) (kvs : list (string * Value)) :
  NoDup kvs.*1 -> NoDup (lookups s kvs).
Proof.
  induction kvs as [|[c w] kvs IH]; simpl; intros Hnd.
  - constructor.
  - apply NoDup_cons in Hnd as [Hc Hnd].
    destruct (decide (c = BaseCurrency s)) as [Hb|Hb].
    + rewrite lookups_cons_base by done. by apply IH.
    + rewrite lookups_cons by done. apply NoDup_cons. split; [|by apply IH].
      intros (c' & Hc' & _ & [= Heq])%elem_of_lookups.
      apply symbol_inj in Heq as ->. done.
Qed.

Lemma getPrices_loop_step (rp : string -> option Value)
    (kvs : list (string * Value)) (prices0 : gmap string Value)
    (c0 : string) (w x : Value) (c : string) :
  rp c0 = Some x ->
  (if decide (c ∈ kvs.*1) then rp c else <[c0:=x]> prices0 !! c)
  = if decide (c ∈ ((c0, w) :: kvs).*1) then rp c else prices0 !! c.
Proof.
  intros Hrp. rewrite fmap_cons. simpl fst.
  destruct (decide (c ∈ kvs.*1)) as [Hin|Hnin].
  - rewrite decide_True; [done|by right].
  - destruct (decide (c = c0)) as [->|Hne].
    + rewrite decide_True by left. by rewrite lookup_insert_eq.
    + rewrite decide_False, lookup_insert_ne; [done..|].
      intros [?|?]%elem_of_cons; done.
Qed.

(** A run without failure: the prices it stores and the calls it makes. *)
Lemma getPrices_loop_ok (s : Strategy) (session : ExchangeSession)
    (kvs : list (string * Value)) (prices0 prices : gmap string Value)
    (t : list event) :
  getPrices_loop s session kvs prices0 = ((prices, None), t) ->
  (forall c, prices !! c = if decide (c ∈ kvs.*1) then resolved_price s session c
                           else prices0 !! c)
  /\ t = lookups s kvs.
Proof.
  revert prices0 t. induction kvs as [|[c0 w] kvs IH]; intros prices0 t H; simpl in H.
  - injection H as <- <-. split; [|done]. intros c.
    rewrite decide_False; [done|]. intros []%elem_of_nil.
  - destruct (decide (c0 = BaseCurrency s)) as [Hb|Hb].
    + apply IH in H as [Hp ->]. split; [|by rewrite lookups_cons_base].
      intros c. rewrite Hp. apply getPrices_loop_step.
      unfold resolved_price. by rewrite decide_True.
    + destruct (QueryTicker session (c0 +:+ BaseCurrency s)) as [ticker|err] eqn:Hq;
        [|discriminate].
      destruct (getPrices_loop s session kvs (<[c0:=Last ticker]> prices0))
        as [r t0] eqn:Hl. injection H as -> <-.
      apply IH in Hl as [Hp ->]. split; [|by rewrite lookups_cons].
      intros c. rewrite Hp. apply getPrices_loop_step.
      unfold resolved_price. rewrite decide_False by done. by rewrite Hq.
Qed.

(** A run that fails: where it fails. *)
Lemma getPrices_loop_error (s : Strategy) (session : ExchangeSession)
    (kvs : list (string * Value)) (prices0 prices : gmap string Value)
    (err : error) (t : list event) :
  getPrices_loop s session kvs prices0 = ((prices, Some err), t) ->
  exists l1 c w l2 t1,
    kvs = l1 ++ (c, w) :: l2
    /\ c <> BaseCurrency s
    /\ QueryTicker session (c +:+ BaseCurrency s) = inr err
    /\ getPrices_loop s session l1 prices0 = ((prices, None), t1)
    /\ t = t1 ++ [CallQueryTicker (c +:+ BaseCurrency s); CallNotify err;
                  LogQueryTickerError err].
Proof.
  revert prices0 t. induction kvs as [|[c0 w0] kvs IH]; intros prices0 t H; simpl in H.
  - discriminate.
  - destruct (decide (c0 = BaseCurrency s)) as [Hb|Hb].
    + apply IH in H as (l1 & c & w & l2 & t1 & -> & Hc & Hq & Hl1 & ->).
      exists ((c0, w0) :: l1), c, w, l2, t1. simpl.
      rewrite decide_True by done. done.
    + destruct (QueryTicker session (c0 +:+ BaseCurrency s)) as [ticker|err0] eqn:Hq.
      * destruct (getPrices_loop s session kvs (<[c0:=Last ticker]> prices0))
          as [r t0] eqn:Hl. injection H as -> <-.
        apply IH in Hl as (l1 & c & w & l2 & t1 & -> & Hc & Hq' & Hl1 & ->).
        exists ((c0, w0) :: l1), c, w, l2,
          (CallQueryTicker (c0 +:+ BaseCurrency s) :: t1). simpl.
        rewrite decide_False by done. rewrite Hq, Hl1. done.
      * injection H as <- <- <-. by exists [], c0, w0, kvs, [].
Qed.

Lemma ranges_keys {A} (m : gmap string A) (kvs : list (string * A)) (c : string) :
  ranges m kvs -> c ∈ kvs.*1 <-> c ∈ dom m.
Proof.
  intros Hr. rewrite list_elem_of_fmap, elem_of_dom. split.
  - intros ([c' x] & -> & Hin). exists x. by apply (ranges_lookup m kvs).
  - intros [x Hx]. exists (c, x). split; [done|]. by apply (ranges_lookup m kvs).
Qed.

Lemma ranges_NoDup {A} (m : gmap string A) (kvs : list (string * A)) :
  ranges m kvs -> NoDup kvs.*1.
Proof. intros Hr. unfold ranges in Hr. rewrite Hr. apply NoDup_fst_map_to_list. Qed.

(** X8: [getPrices] returns without error exactly when every currency it
    visits has a price: the base currency always has, another currency has
    when its ticker lookup succeeds. *)
Theorem getPrices_ok_iff (s : Strategy) (session : ExchangeSession)
    (kvs : list (string * Value)) :
  (result (getPrices_in s session kvs)).2 = None
  <-> forall c, c ∈ kvs.*1 -> is_Some (resolved_price s session c).
Proof.
  unfold getPrices_in.
  destruct (getPrices_loop s session kvs ∅) as [[prices [err|]] t] eqn:H; simpl.
  - split; [discriminate|]. intros Hall. exfalso.
    apply getPrices_loop_error in H as (l1 & c & w & l2 & t1 & -> & Hc & Hq & _).
    destruct (Hall c) as [x Hx].
    + rewrite fmap_app, fmap_cons, elem_of_app. right. left.
    + unfold resolved_price in Hx. rewrite decide_False in Hx by done.
      by rewrite Hq in Hx.
  - split; [|done]. intros _ c Hc.
    pose proof (getPrices_loop_dom _ _ _ _ _ _ H) as Hdom.
    destruct (getPrices_loop_ok _ _ _ _ _ _ H) as [Hp _].
    specialize (Hp c). rewrite decide_True in Hp by done. rewrite <- Hp.
    apply elem_of_dom. rewrite Hdom, dom_empty_L, (left_id_L ∅ (∪)).
    by apply elem_of_list_to_set.
Qed.

Lemma getPrices_in_ok_lookup (s : Strategy) (session : ExchangeSession)
    (targetWeights : gmap string Value) (kvs : list (string * Value))
    (prices : gmap string Value) (t : list event) (c : string) :
  ranges targetWeights kvs ->
  getPrices_in s session kvs = ((prices, None), t) ->
  prices !! c = if decide (c ∈ dom targetWeights) then resolved_price s session c
                else None.
Proof.
  intros Hr H. unfold getPrices_in in H.
  destruct (getPrices_loop_ok _ _ _ _ _ _ H) as [Hp _]. rewrite Hp.
  destruct (decide (c ∈ kvs.*1)) as [Hin|Hnin].
  - by rewrite decide_True by (by apply (ranges_keys targetWeights kvs)).
  - rewrite decide_False; [apply lookup_empty|].
    by rewrite <- (ranges_keys targetWeights kvs).
Qed.

(** X9: when [getPrices] returns without error, the prices are those of
    the currencies of the target weights and of no other: exactly one for
    the base currency, the last price of the ticker of currency + base
    currency for another; and its calls are one lookup for each currency
    but the base currency, in the order of the visit. *)
Theorem getPrices_resolved (s : Strategy) (session : ExchangeSession)
    (targetWeights : gmap string Value) (kvs : list (string * Value))
    (prices : gmap string Value) (t : list event) :
  ranges targetWeights kvs ->
  getPrices_in s session kvs = ((prices, None), t) ->
  dom prices = dom targetWeights
  /\ (BaseCurrency s ∈ dom targetWeights -> prices !! BaseCurrency s = Some One)
  /\ (forall c, c ∈ dom targetWeights -> c <> BaseCurrency s ->
        exists ticker, QueryTicker session (c +:+ BaseCurrency s) = inl ticker
                       /\ prices !! c = Some (Last ticker))
  /\ t = lookups s kvs.
Proof.
  intros Hr H. unfold getPrices_in in H.
  pose proof (getPrices_loop_dom _ _ _ _ _ _ H) as Hdom.
  destruct (getPrices_loop_ok _ _ _ _ _ _ H) as [Hp Ht].
  assert (Hd : dom prices = dom targetWeights).
  { apply set_eq. intros c.
    rewrite Hdom, dom_empty_L, (left_id_L ∅ (∪)), elem_of_list_to_set.
    by apply ranges_keys. }
  split; [done|]. split; [|split; [|done]].
  - intros Hb. rewrite Hp, decide_True by (by apply (ranges_keys targetWeights)).
    unfold resolved_price. by rewrite decide_True.
  - intros c Hc Hne. pose proof Hc as Hc'. rewrite <- Hd in Hc'.
    apply elem_of_dom in Hc' as [x Hx].
    rewrite Hp, decide_True in Hx by (by apply (ranges_keys targetWeights)).
    unfold resolved_price in Hx. rewrite decide_False in Hx by done.
    destruct (QueryTicker session (c +:+ BaseCurrency s)) as [ticker|] eqn:Hq;
      [|discriminate].
    exists ticker. split; [done|].
    rewrite Hp, decide_True by (by apply (ranges_keys targetWeights)).
    unfold resolved_price. rewrite decide_False by done. by rewrite Hq.
Qed.

Lemma getPrices_resolved_witness :
  dom scenario_prices = dom scenario_targetWeights
  /\ (BaseCurrency (scenario scenario_targetWeights 5000000 0 false)
        ∈ dom scenario_targetWeights ->
      scenario_prices !! BaseCurrency (scenario scenario_targetWeights 5000000 0 false)
      = Some One)
  /\ (forall c, c ∈ dom scenario_targetWeights ->
        c <> BaseCurrency (scenario scenario_targetWeights 5000000 0 false) ->
        exists ticker,
          QueryTicker scenario_session
            (c +:+ BaseCurrency (scenario scenario_targetWeights 5000000 0 false))
          = inl ticker
          /\ scenario_prices !! c = Some (Last ticker))
  /\ [CallQueryTicker "BTCUSDT"]
     = lookups (scenario scenario_targetWeights 5000000 0 false) scenario_range.
Proof.
  apply (getPrices_resolved (scenario scenario_targetWeights 5000000 0 false)
           scenario_session scenario_targetWeights scenario_range
           scenario_prices [CallQueryTicker "BTCUSDT"]).
  - exact scenario_range_ranges.
  - reflexivity.
Defined.

(** X10: an error of [getPrices] is the error of the first lookup that
    fails in the order of the visit: the lookups before it succeed, their
    prices are the prices returned, and the calls end with the failed
    lookup, the notification and the log line. *)
Theorem getPrices_error_first (s : Strategy) (session : ExchangeSession)
    (kvs : list (string * Value)) (prices : gmap string Value) (err : error)
    (t : list event) :
  getPrices_in s session kvs = ((prices, Some err), t) ->
  exists l1 c w l2,
    kvs = l1 ++ (c, w) :: l2
    /\ c <> BaseCurrency s
    /\ QueryTicker session (c +:+ BaseCurrency s) = inr err
    /\ getPrices_in s session l1 = ((prices, None), lookups s l1)
    /\ t = lookups s l1 ++ [CallQueryTicker (c +:+ BaseCurrency s); CallNotify err;
                            LogQueryTickerError err].
Proof.
  intros H. unfold getPrices_in in *.
  apply getPrices_loop_error in H as (l1 & c & w & l2 & t1 & -> & Hc & Hq & Hl1 & ->).
  destruct (getPrices_loop_ok _ _ _ _ _ _ Hl1) as [_ ->].
  by exists l1, c, w, l2.
Qed.

Lemma getPrices_error_first_witness :
  exists l1 c w l2,
    map_to_list three_targetWeights = l1 ++ (c, w) :: l2
    /\ c <> BaseCurrency (scenario three_targetWeights 5000000 0 false)
    /\ QueryTicker failing_session
         (c +:+ BaseCurrency (scenario three_targetWeights 5000000 0 false))
       = inr "timeout"%string
    /\ getPrices_in (scenario three_targetWeights 5000000 0 false) failing_session l1
       = (({[ "ETH"%string := 1000 * One; "USDT"%string := One ]}, None),
          lookups (scenario three_targetWeights 5000000 0 false) l1)
    /\ [CallQueryTicker "ETHUSDT"; CallQueryTicker "BTCUSDT"; CallNotify "timeout";
        LogQueryTickerError "timeout"]
       = lookups (scenario three_targetWeights 5000000 0 false) l1
           ++ [CallQueryTicker
                 (c +:+ BaseCurrency (scenario three_targetWeights 5000000 0 false));
               CallNotify "timeout"; LogQueryTickerError "timeout"].
Proof.
  apply (getPrices_error_first (scenario three_targetWeights 5000000 0 false)
           failing_session (map_to_list three_targetWeights)).
  reflexivity.
Defined.

Lemma NoDup_failure_calls (symbol : string) (err : error) :
  NoDup [CallQueryTicker symbol; CallNotify err; LogQueryTickerError err].
Proof.
  apply NoDup_cons. split.
  { intros [[=]|[[=]|[]%elem_of_nil]%elem_of_cons]%elem_of_cons. }
  apply NoDup_cons. split.
  { intros [[=]|[]%elem_of_nil]%elem_of_cons. }
  apply NoDup_singleton.
Qed.

(** X11: in one run [getPrices] looks no ticker up twice, notifies and logs
    at most once, and every lookup is for a currency of the target weights
    other than the base currency; the ticker base currency + base currency
    is never looked up. *)
Theorem getPrices_lookups_once (s : Strategy) (session : ExchangeSession)
    (targetWeights : gmap string Value) (kvs : list (string * Value)) :
  ranges targetWeights kvs ->
  NoDup (trace (getPrices_in s session kvs))
  /\ (forall symbol,
        CallQueryTicker symbol ∈ trace (getPrices_in s session kvs) ->
        symbol <> BaseCurrency s +:+ BaseCurrency s
        /\ exists c, c ∈ dom targetWeights /\ c <> BaseCurrency s
                     /\ symbol = c +:+ BaseCurrency s).
Proof.
  intros Hr. pose proof (ranges_NoDup _ _ Hr) as Hnd.
  assert (Hq : forall l symbol,
            (forall c, c ∈ l.*1 -> c ∈ kvs.*1) ->
            CallQueryTicker symbol ∈ lookups s l ->
            symbol <> BaseCurrency s +:+ BaseCurrency s
            /\ exists c, c ∈ dom targetWeights /\ c <> BaseCurrency s
                         /\ symbol = c +:+ BaseCurrency s).
  { intros l symbol Hsub (c & Hc & Hne & [= ->])%elem_of_lookups. split.
    - intros Heq. by apply symbol_inj in Heq.
    - exists c. split; [|done]. by apply (ranges_keys targetWeights kvs), Hsub. }
  destruct (getPrices_in s session kvs) as [[prices [err|]] t] eqn:H; simpl.
  - unfold getPrices_in in H.
    apply getPrices_loop_error in H as (l1 & c & w & l2 & t1 & -> & Hc & _ & Hl1 & ->).
    destruct (getPrices_loop_ok _ _ _ _ _ _ Hl1) as [_ ->].
    rewrite fmap_app, fmap_cons in Hnd. simpl in Hnd.
    apply NoDup_app in Hnd as (Hnd1 & Hnot & _). split.
    + apply NoDup_app. split; [by apply NoDup_lookups|]. split.
      * intros e (c' & Hc' & _ & ->)%elem_of_lookups
          [[= Heq]|[[=]|[[=]|[]%elem_of_nil]%elem_of_cons]%elem_of_cons]%elem_of_cons.
        apply symbol_inj in Heq as ->. apply (Hnot c Hc'). left.
      * apply NoDup_failure_calls.
    + intros symbol [Hin|Hin]%elem_of_app.
      * apply (Hq l1); [|done]. intros c' Hc'.
        rewrite fmap_app, elem_of_app. by left.
      * apply elem_of_cons in Hin as [[= ->]|Hin].
        -- split; [intros Heq; by apply symbol_inj in Heq|].
           exists c. split; [|done]. apply (ranges_keys targetWeights _ c Hr).
           rewrite fmap_app, fmap_cons, elem_of_app. right. left.
        -- apply elem_of_cons in Hin as [[=]|Hin].
           apply elem_of_cons in Hin as [[=]|[]%elem_of_nil].
  - unfold getPrices_in in H. destruct (getPrices_loop_ok _ _ _ _ _ _ H) as [_ ->].
    split; [by apply NoDup_lookups|]. intros symbol. by apply Hq.
Qed.

Lemma getPrices_lookups_once_witness :
  NoDup (trace (getPrices_in (scenario scenario_targetWeights 5000000 0 false)
                  scenario_session scenario_range))
  /\ (forall symbol,
        CallQueryTicker symbol
          ∈ trace (getPrices_in (scenario scenario_targetWeights 5000000 0 false)
                     scenario_session scenario_range) ->
        symbol <> BaseCurrency (scenario scenario_targetWeights 5000000 0 false)
                  +:+ BaseCurrency (scenario scenario_targetWeights 5000000 0 false)
        /\ exists c, c ∈ dom scenario_targetWeights
                     /\ c <> BaseCurrency (scenario scenario_targetWeights 5000000 0 false)
                     /\ symbol
                        = c +:+ BaseCurrency
                                  (scenario scenario_targetWeights 5000000 0 false)).
Proof.
  apply (getPrices_lookups_once (scenario scenario_targetWeights 5000000 0 false)
           scenario_session scenario_targetWeights scenario_range).
  exact scenario_range_ranges.
Defined.

(** ** generateSubmitOrders *)

Lemma generateSubmitOrders_ranges_witness :
  generateSubmitOrders_in (scenario scenario_targetWeights 5000000 0 false)
    scenario_prices scenario_marketValues scenario_range
  ≡ₚ generateSubmitOrders (scenario scenario_targetWeights 5000000 0 false)
       scenario_prices scenario_marketValues scenario_targetWeights.
Proof.
  apply (generateSubmitOrders_ranges (scenario scenario_targetWeights 5000000 0 false)
           scenario_prices scenario_marketValues scenario_targetWeights
           scenario_range).
  exact scenario_range_ranges.
Defined.

Lemma generateSubmitOrders_body_Symbol (s : Strategy)
    (prices currentWeights : gmap string Value) (totalValue : Value)
    (c : string) (w : Value) (o : SubmitOrder) :
  generateSubmitOrders_body s prices currentWeights totalValue c w = Some o ->
  c <> BaseCurrency s /\ Symbol o = c +:+ BaseCurrency s
  /\ Type_ o = OrderTypeMarket.
Proof.
  rewrite generateSubmitOrders_body_eq.
  destruct (decide (c = BaseCurrency s)); [discriminate|].
  destruct (decide (_ < _)); [discriminate|]. by intros [= <-].
Qed.

Lemma NoDup_order_symbols (s : Strategy)
    (prices currentWeights : gmap string Value) (totalValue : Value)
    (kvs : list (string * Value)) :
  NoDup kvs.*1 ->
  NoDup (Symbol <$> omap (fun kv => generateSubmitOrders_body s prices currentWeights
                                      totalValue kv.1 kv.2) kvs).
Proof.
  induction kvs as [|[c w] kvs IH]; simpl; intros Hnd; [constructor|].
  apply NoDup_cons in Hnd as [Hc Hnd].
  destruct (generateSubmitOrders_body s prices currentWeights totalValue c w)
    as [o|] eqn:Hb; [|by apply IH].
  rewrite fmap_cons. apply NoDup_cons. split; [|by apply IH].
  intros (o' & Heq & ([c' w'] & Hin & Hb')%list_elem_of_omap)%list_elem_of_fmap.
  apply generateSubmitOrders_body_Symbol in Hb as (_ & Hs & _).
  apply generateSubmitOrders_body_Symbol in Hb' as (_ & Hs' & _).
  simpl in Hs'. rewrite Hs, Hs' in Heq. apply symbol_inj in Heq as ->.
  apply Hc, list_elem_of_fmap. by exists (c', w').
Qed.

Lemma length_omap_le {A B} (f : A -> option B) (l : list A) :
  (length (omap f l) <= length l)%nat.
Proof.
  induction l as [|x l IH]; simpl; [lia|].
  change (list_omap A B f l) with (omap f l). destruct (f x); simpl; lia.
Qed.

(** X13: the orders of a run are market orders for pairwise distinct
    symbols, at most one for each currency of the target weights other
    than the base currency. *)
Theorem orders_distinct (s : Strategy)
    (prices marketValues targetWeights : gmap string Value)
    (kvs : list (string * Value)) :
  ranges targetWeights kvs ->
  NoDup (Symbol <$> generateSubmitOrders_in s prices marketValues kvs)
  /\ (length (generateSubmitOrders_in s prices marketValues kvs)
      <= size (delete (BaseCurrency s) targetWeights))%nat
  /\ (forall o, o ∈ generateSubmitOrders_in s prices marketValues kvs ->
                Type_ o = OrderTypeMarket).
Proof.
  intros Hr. rewrite generateSubmitOrders_in_omap. split; [|split].
  - by apply NoDup_order_symbols, (ranges_NoDup targetWeights).
  - destruct (targetWeights !! BaseCurrency s) as [x|] eqn:Hb.
    + pose proof (map_to_list_delete targetWeights _ _ Hb) as Hd.
      unfold ranges in Hr. rewrite <- Hd in Hr. rewrite Hr. simpl.
      unfold generateSubmitOrders_body at 1. rewrite decide_True by done.
      rewrite <- length_map_to_list. apply length_omap_le.
    + rewrite delete_id by done. unfold ranges in Hr.
      rewrite <- length_map_to_list, <- Hr. apply length_omap_le.
  - intros o ([c w] & _ & Hb)%list_elem_of_omap.
    by apply generateSubmitOrders_body_Symbol in Hb as (_ & _ & Ht).
Qed.

Lemma orders_distinct_witness :
  NoDup (Symbol <$> generateSubmitOrders_in
                      (scenario scenario_targetWeights 5000000 0 false)
                      scenario_prices scenario_marketValues scenario_range)
  /\ (length (generateSubmitOrders_in
                (scenario scenario_targetWeights 5000000%Z 0%Z false)
                scenario_prices scenario_marketValues scenario_range)
      <= size (delete (BaseCurrency
                         (scenario scenario_targetWeights 5000000%Z 0%Z false))
                 scenario_targetWeights))%nat
  /\ (forall o, o ∈ generateSubmitOrders_in
                      (scenario scenario_targetWeights 5000000 0 false)
                      scenario_prices scenario_marketValues scenario_range ->
                Type_ o = OrderTypeMarket).
Proof.
  apply (orders_distinct (scenario scenario_targetWeights 5000000 0 false)
           scenario_prices scenario_marketValues scenario_targetWeights
           scenario_range).
  exact scenario_range_ranges.
Defined.

(** X14: a run builds no order at all exactly when the deviation of every
    currency of the target weights other than the base currency is
    strictly below the threshold. *)
Theorem no_orders_iff (s : Strategy)
    (prices marketValues targetWeights : gmap string Value)
    (kvs : list (string * Value)) :
  ranges targetWeights kvs ->
  generateSubmitOrders_in s prices marketValues kvs = []
  <-> forall c w, targetWeights !! c = Some w -> c <> BaseCurrency s ->
        Abs (Sub w (index (Normalize marketValues) c)) < Threshold s.
Proof.
  intros Hr. split.
  - intros Hnil c w Hc Hbase.
    destruct (decide (Abs (Sub w (index (Normalize marketValues) c)) < Threshold s))
      as [|Hge]; [done|]. exfalso.
    pose proof (generateSubmitOrders_body_eq s prices (Normalize marketValues)
                  (Sum marketValues) c w) as Hb.
    rewrite decide_False in Hb by done.
    rewrite decide_False in Hb by (unfold weightDifference; done).
    assert (Hin : exists o, o ∈ generateSubmitOrders_in s prices marketValues kvs).
    { eexists. apply elem_of_generateSubmitOrders_in. exists c, w.
      split; [by apply (ranges_lookup targetWeights)|exact Hb]. }
    destruct Hin as [o Ho]. rewrite Hnil in Ho. by apply elem_of_nil in Ho.
  - intros Hall.
    destruct (generateSubmitOrders_in s prices marketValues kvs) as [|o l] eqn:Hg;
      [done|]. exfalso.
    assert (Ho : o ∈ generateSubmitOrders_in s prices marketValues kvs)
      by (rewrite Hg; left).
    destruct (generateSubmitOrders_in_inv _ _ _ _ _ _ Hr Ho)
      as (c & w & Hc & Hbase & Hge & _).
    specialize (Hall c w Hc Hbase). unfold weightDifference in Hge. lia.
Qed.

Lemma no_orders_iff_witness :
  generateSubmitOrders_in (scenario scenario_targetWeights 20000000 0 false)
    scenario_prices scenario_marketValues scenario_range = []
  <-> forall c w, scenario_targetWeights !! c = Some w ->
        c <> BaseCurrency (scenario scenario_targetWeights 20000000 0 false) ->
        Abs (Sub w (index (Normalize scenario_marketValues) c))
        < Threshold (scenario scenario_targetWeights 20000000 0 false).
Proof.
  apply (no_orders_iff (scenario scenario_targetWeights 20000000 0 false)
           scenario_prices scenario_marketValues scenario_targetWeights
           scenario_range).
  exact scenario_range_ranges.
Defined.

Lemma omap_ext_in {A B} (f g : A -> option B) (l : list A) :
  (forall x, x ∈ l -> f x = g x) -> omap f l = omap g l.
Proof.
  induction l as [|x l IH]; intros Hfg; [done|].
  assert (IH' : omap f l = omap g l).
  { apply IH. intros y Hy. apply Hfg. by right. }
  simpl. rewrite (Hfg x) by left. destruct (g x); [f_equal|]; exact IH'.
Qed.

(** X15: the orders depend on the prices only through the prices of the
    currencies of the target weights other than the base currency: the
    price of the base currency and the prices of other currencies are not
    read. *)
Theorem generateSubmitOrders_prices_frame (s : Strategy)
    (prices prices' marketValues targetWeights : gmap string Value)
    (kvs : list (string * Value)) :
  ranges targetWeights kvs ->
  (forall c, c ∈ dom targetWeights -> c <> BaseCurrency s ->
             index prices c = index prices' c) ->
  generateSubmitOrders_in s prices marketValues kvs
  = generateSubmitOrders_in s prices' marketValues kvs.
Proof.
  intros Hr Hp. rewrite !generateSubmitOrders_in_omap. apply omap_ext_in.
  intros [c w] Hin. simpl. rewrite !generateSubmitOrders_body_eq.
  destruct (decide (c = BaseCurrency s)) as [|Hne]; [done|].
  unfold quantity_raw. rewrite (Hp c); [done| |done].
  apply elem_of_dom. exists w. by apply (ranges_lookup targetWeights kvs).
Qed.

Lemma generateSubmitOrders_prices_frame_witness :
  generateSubmitOrders_in (scenario scenario_targetWeights 5000000 0 false)
    scenario_prices scenario_marketValues scenario_range
  = generateSubmitOrders_in (scenario scenario_targetWeights 5000000 0 false)
      other_prices scenario_marketValues scenario_range.
Proof.
  apply (generateSubmitOrders_prices_frame
           (scenario scenario_targetWeights 5000000 0 false)
           scenario_prices other_prices scenario_marketValues
           scenario_targetWeights scenario_range).
  - exact scenario_range_ranges.
  - intros c Hc Hne.
    apply elem_of_dom in Hc as [w Hc]. apply elem_of_map_to_list in Hc.
    vm_compute in Hc.
    apply elem_of_cons in Hc as [[= -> ->]|Hc]; [by destruct Hne|].
    apply elem_of_cons in Hc as [[= -> ->]|Hc]; [reflexivity|].
    by apply elem_of_nil in Hc.
Defined.

(** ** Validate, getSymbols, Subscribe *)

(** X16: [Validate] accepts exactly the configurations whose threshold and
    maximum amount are not negative, zero included; a negative threshold
    is reported whatever the maximum amount is, a negative maximum amount
    only when the threshold is not negative. *)
Theorem Validate_cases (s : Strategy) :
  (Validate s = None <-> 0 <= Threshold s /\ 0 <= MaxAmount s)
  /\ (Threshold s < 0 ->
      Validate s = Some "threshold should not less than 0"%string)
  /\ (0 <= Threshold s -> MaxAmount s < 0 ->
      Validate s = Some "maxAmount shoud not less than 0"%string).
Proof.
  unfold Validate, Sign.
  destruct (Z.ltb_spec (Z.sgn (Threshold s)) 0) as [Ht|Ht];
    destruct (Z.ltb_spec (Z.sgn (MaxAmount s)) 0) as [Hm|Hm];
    repeat split; try done; try lia; intros; try lia; exfalso; lia.
Qed.

Global Instance symbol_of_inj (base : string) :
  Inj (=) (=) (fun c : string => c +:+ base).
Proof. intros c1 c2. apply symbol_inj. Qed.

Lemma getSymbols_fmap (s : Strategy) :
  getSymbols s = (fun c => c +:+ BaseCurrency s) <$> QuoteCurrencies s.
Proof.
  unfold getSymbols.
  assert (Hacc : forall l acc,
            foldl (fun symbols c => symbols ++ [c +:+ BaseCurrency s]) acc l
            = acc ++ ((fun c => c +:+ BaseCurrency s) <$> l)).
  { induction l as [|c l IH]; intros acc; simpl.
    - by rewrite app_nil_r.
    - by rewrite IH, <- app_assoc. }
  apply Hacc.
Qed.

(** X17: [getSymbols] gives the symbol currency + base currency of every
    quote currency, in their order, and gives no symbol twice exactly when
    no quote currency is listed twice. *)
Theorem getSymbols_symbols (s : Strategy) :
  getSymbols s = (fun c => c +:+ BaseCurrency s) <$> QuoteCurrencies s
  /\ (NoDup (getSymbols s) <-> NoDup (QuoteCurrencies s)).
Proof.
  split; [apply getSymbols_fmap|].
  rewrite getSymbols_fmap. apply (NoDup_fmap _).
Qed.

Lemma Subscribe_fmap (s : Strategy) :
  Subscribe s
  = (fun symbol => {| SubChannel := KLineChannel; SubSymbol := symbol;
                      SubInterval := Interval s |}) <$> getSymbols s.
Proof.
  unfold Subscribe. generalize (getSymbols s). intros l.
  assert (Hacc : forall acc,
            foldl (fun calls symbol =>
                     calls ++ [{| SubChannel := KLineChannel; SubSymbol := symbol;
                                  SubInterval := Interval s |}]) acc l
            = acc ++ ((fun symbol => {| SubChannel := KLineChannel;
                                        SubSymbol := symbol;
                                        SubInterval := Interval s |}) <$> l)).
  { induction l as [|c l IH]; intros acc; simpl.
    - by rewrite app_nil_r.
    - by rewrite IH, <- app_assoc. }
  apply Hacc.
Qed.

Lemma elem_of_Subscribe (s : Strategy) (c : string) :
  c ∈ QuoteCurrencies s ->
  {| SubChannel := KLineChannel; SubSymbol := c +:+ BaseCurrency s;
     SubInterval := Interval s |} ∈ Subscribe s.
Proof.
  intros Hc. rewrite Subscribe_fmap, getSymbols_fmap.
  apply list_elem_of_fmap. exists (c +:+ BaseCurrency s). split; [done|].
  apply list_elem_of_fmap. by exists c.
Qed.

Lemma getPrices_loop_lookup_inv (s : Strategy) (session : ExchangeSession)
    (kvs : list (string * Value)) (prices : gmap string Value) (symbol : string) :
  CallQueryTicker symbol ∈ trace (getPrices_loop s session kvs prices) ->
  exists c, c ∈ kvs.*1 /\ c <> BaseCurrency s /\ symbol = c +:+ BaseCurrency s.
Proof.
  revert prices. induction kvs as [|[c w] kvs IH]; intros prices; simpl.
  - intros []%elem_of_nil.
  - assert (Hrest : forall prices',
              CallQueryTicker symbol ∈ trace (getPrices_loop s session kvs prices') ->
              exists c0, c0 ∈ c :: kvs.*1 /\ c0 <> BaseCurrency s
                         /\ symbol = c0 +:+ BaseCurrency s).
    { intros prices' (c0 & H0 & H1)%IH. exists c0. split; [by right|done]. }
    case_decide; [apply Hrest|].
    destruct (QueryTicker session (c +:+ BaseCurrency s)) as [ticker|err].
    + specialize (Hrest (<[c:=Last ticker]> prices)).
      destruct (getPrices_loop s session kvs (<[c:=Last ticker]> prices)) as [r t0].
      intros [[= ->]|Hin]%elem_of_cons; [|by apply Hrest].
      exists c. split; [left|done].
    + intros [[= ->]|[[=]|[[=]|[]%elem_of_nil]%elem_of_cons]%elem_of_cons]%elem_of_cons.
      exists c. split; [left|done].
Qed.

(** X18: when every currency of the target weights is the base currency
    or a quote currency of the configuration, every ticker a tick looks up
    and every symbol it builds an order for is a symbol that [Subscribe]
    subscribes to, on the kline channel with the interval of the
    configuration. *)
Theorem traded_symbols_subscribed (s : Strategy) (session : ExchangeSession)
    (prices marketValues targetWeights : gmap string Value)
    (kvs : list (string * Value)) :
  ranges targetWeights kvs ->
  (forall c, c ∈ dom targetWeights ->
             c = BaseCurrency s \/ c ∈ QuoteCurrencies s) ->
  (forall symbol,
     CallQueryTicker symbol ∈ trace (getPrices_in s session kvs) ->
     {| SubChannel := KLineChannel; SubSymbol := symbol;
        SubInterval := Interval s |} ∈ Subscribe s)
  /\ (forall o,
        o ∈ generateSubmitOrders_in s prices marketValues kvs ->
        {| SubChannel := KLineChannel; SubSymbol := Symbol o;
           SubInterval := Interval s |} ∈ Subscribe s).
Proof.
  intros Hr Hq. split.
  - intros symbol (c & Hc & Hne & ->)%getPrices_loop_lookup_inv.
    apply elem_of_Subscribe.
    apply (ranges_keys targetWeights kvs c Hr) in Hc.
    destruct (Hq c Hc); done.
  - intros o Ho.
    destruct (generateSubmitOrders_in_inv _ _ _ _ _ _ Hr Ho)
      as (c & w & Hc & Hne & _ & ->). simpl.
    apply elem_of_Subscribe. destruct (Hq c); [|done..].
    apply elem_of_dom. by exists w.
Qed.

Lemma traded_symbols_subscribed_witness :
  (forall symbol,
     CallQueryTicker symbol
       ∈ trace (getPrices_in (scenario scenario_targetWeights 5000000 0 false)
                  scenario_session scenario_range) ->
     {| SubChannel := KLineChannel; SubSymbol := symbol;
        SubInterval := Interval (scenario scenario_targetWeights 5000000 0 false) |}
       ∈ Subscribe (scenario scenario_targetWeights 5000000 0 false))
  /\ (forall o,
        o ∈ generateSubmitOrders_in (scenario scenario_targetWeights 5000000 0 false)
              scenario_prices scenario_marketValues scenario_range ->
        {| SubChannel := KLineChannel; SubSymbol := Symbol o;
           SubInterval := Interval (scenario scenario_targetWeights 5000000 0 false) |}
          ∈ Subscribe (scenario scenario_targetWeights 5000000 0 false)).
Proof.
  apply (traded_symbols_subscribed (scenario scenario_targetWeights 5000000 0 false)
           scenario_session scenario_prices scenario_marketValues
           scenario_targetWeights scenario_range).
  - exact scenario_range_ranges.
  - intros c Hc.
    apply elem_of_dom in Hc as [w Hc]. apply elem_of_map_to_list in Hc.
    vm_compute in Hc.
    apply elem_of_cons in Hc as [[= -> ->]|Hc]; [by left|].
    apply elem_of_cons in Hc as [[= -> ->]|Hc]; [right; simpl; left|].
    by apply elem_of_nil in Hc.
Defined.

(** ** rebalance *)

(** X19: what [SubmitOrders] returns changes nothing in a tick but the log
    line of the error: with any two order executors the tick makes the same
    calls and reports the same orders. *)
Theorem rebalance_executor_error (s : Strategy) (orderExecutor orderExecutor' : OrderExecutor)
    (session : ExchangeSession) (range1 range2 : list (string * Value)) :
  filter (fun e => logs_submit_error e = false)
    (trace (rebalance_in s orderExecutor session range1 range2))
  = filter (fun e => logs_submit_error e = false)
      (trace (rebalance_in s orderExecutor' session range1 range2)).
Proof.
  destruct (getPrices_in s session range1) as [[prices [err|]] t] eqn:Hp.
  - by rewrite !(rebalance_in_price_error _ _ _ _ _ prices err t Hp).
  - rewrite !(rebalance_in_trace _ _ _ _ _ prices t Hp). simpl.
    rewrite !filter_app. do 2 f_equal.
    destruct (DryRun s); [done|].
    rewrite !filter_cons_True by done. f_equal.
    destruct (SubmitOrders orderExecutor _), (SubmitOrders orderExecutor' _);
      try rewrite !filter_cons_False by done; done.
Qed.

Lemma getPrices_in_QueryTicker (s : Strategy) (session session' : ExchangeSession)
    (kvs : list (string * Value)) :
  (forall symbol, QueryTicker session' symbol = QueryTicker session symbol) ->
  getPrices_in s session' kvs = getPrices_in s session kvs.
Proof.
  intros Hq. unfold getPrices_in. generalize (∅ : gmap string Value).
  induction kvs as [|[c w] kvs IH]; intros prices; simpl; [done|].
  case_decide; [apply IH|]. rewrite Hq.
  destruct (QueryTicker session (c +:+ BaseCurrency s)); [|done].
  by rewrite IH.
Qed.

(** X20: a tick reads the balances of the currencies of the target weights
    only: their totals with [IgnoreLocked], their available parts without.
    A session with the same tickers that differs in other balances gives
    the same tick. *)
Theorem rebalance_balances_frame (s : Strategy) (orderExecutor : OrderExecutor)
    (session session' : ExchangeSession) (range1 range2 : list (string * Value)) :
  (forall symbol, QueryTicker session' symbol = QueryTicker session symbol) ->
  (forall k, k ∈ dom (TargetWeights (set s)) ->
     if IgnoreLocked s then
       Total (balance_of (Balances session') k) = Total (balance_of (Balances session) k)
     else Available (balance_of (Balances session') k)
          = Available (balance_of (Balances session) k)) ->
  rebalance_in s orderExecutor session' range1 range2
  = rebalance_in s orderExecutor session range1 range2.
Proof.
  intros Ht Hb.
  assert (Hq : getQuantities s (Balances session') (TargetWeights (set s))
               = getQuantities s (Balances session) (TargetWeights (set s))).
  { apply map_eq. intros k. rewrite !getQuantities_lookup.
    destruct (TargetWeights (set s) !! k) as [w|] eqn:Hw; [|done]. simpl.
    assert (Hk : k ∈ dom (TargetWeights (set s))) by (by apply elem_of_dom).
    specialize (Hb k Hk). destruct (IgnoreLocked s); f_equal; exact Hb. }
  unfold rebalance_in. by rewrite Hq, (getPrices_in_QueryTicker s session session').
Qed.

Lemma rebalance_balances_frame_witness :
  rebalance_in (scenario scenario_targetWeights 5000000 0 false) accepting_executor
    {| QueryTicker := QueryTicker scenario_session; Balances := other_balances |}
    scenario_range scenario_range
  = rebalance_in (scenario scenario_targetWeights 5000000 0 false) accepting_executor
      scenario_session scenario_range scenario_range.
Proof.
  apply (rebalance_balances_frame (scenario scenario_targetWeights 5000000 0 false)
           accepting_executor scenario_session
           {| QueryTicker := QueryTicker scenario_session; Balances := other_balances |}
           scenario_range scenario_range).
  - reflexivity.
  - intros k Hk. simpl.
    apply elem_of_dom in Hk as [w Hk]. apply elem_of_map_to_list in Hk.
    vm_compute in Hk.
    repeat (apply elem_of_cons in Hk as [[= -> ->]|Hk]; [reflexivity|]).
    by apply elem_of_nil in Hk.
Defined.

(** X21: with no target weights a tick looks no price up and builds no
    order; unless it is a dry run it still calls [SubmitOrders], with the
    empty list. *)
Theorem rebalance_empty (s : Strategy) (orderExecutor : OrderExecutor)
    (session : ExchangeSession) :
  TargetWeights (set s) = ∅ ->
  rebalance s orderExecutor session
  = (tt, if DryRun s then []
         else CallSubmitOrders []
                :: match SubmitOrders orderExecutor [] with
                   | Some err => [LogSubmitOrderError err]
                   | None => []
                   end).
Proof.
  intros He. unfold rebalance. rewrite He, map_to_list_empty.
  unfold rebalance_in, generateSubmitOrders_in. simpl.
  destruct (DryRun s); [done|]. simpl.
  by destruct (SubmitOrders orderExecutor []).
Qed.

Lemma rebalance_empty_witness :
  rebalance (scenario ∅ 5000000 0 false) rejecting_executor scenario_session
  = (tt, if DryRun (scenario ∅ 5000000 0 false) then []
         else CallSubmitOrders []
                :: match SubmitOrders rejecting_executor [] with
                   | Some err => [LogSubmitOrderError err]
                   | None => []
                   end).
Proof.
  apply (rebalance_empty (scenario ∅ 5000000 0 false) rejecting_executor
           scenario_session).
  reflexivity.
Defined.

(** X22: after the prices are resolved, the market values of a tick are
    those of the currencies of the target weights: for the base currency
    one times the held quantity, for another currency the last price of
    its ticker times the held quantity. *)
Theorem marketValues_resolved (s : Strategy) (session : ExchangeSession)
    (targetWeights : gmap string Value) (kvs : list (string * Value))
    (prices : gmap string Value) (t : list event) :
  ranges targetWeights kvs ->
  getPrices_in s session kvs = ((prices, None), t) ->
  let quantities := getQuantities s (Balances session) targetWeights in
  let marketValues := ElementwiseProduct prices quantities in
  dom marketValues = dom targetWeights
  /\ (BaseCurrency s ∈ dom targetWeights ->
      exists q, quantities !! BaseCurrency s = Some q
                /\ marketValues !! BaseCurrency s = Some (Mul One q))
  /\ (forall c, c ∈ dom targetWeights -> c <> BaseCurrency s ->
        exists ticker q,
          QueryTicker session (c +:+ BaseCurrency s) = inl ticker
          /\ quantities !! c = Some q
          /\ marketValues !! c = Some (Mul (Last ticker) q)).
Proof.
  intros Hr Hp quantities marketValues.
  assert (Hprice : forall c, prices !! c
            = if decide (c ∈ dom targetWeights) then resolved_price s session c
              else None).
  { intros c. by apply (getPrices_in_ok_lookup s session targetWeights kvs prices t). }
  assert (Hsome : forall c, c ∈ dom targetWeights -> is_Some (prices !! c)).
  { intros c Hc. unfold getPrices_in in Hp.
    apply elem_of_dom. rewrite (getPrices_loop_dom _ _ _ _ _ _ Hp).
    rewrite dom_empty_L, (left_id_L ∅ (∪)), elem_of_list_to_set.
    by apply (ranges_keys targetWeights kvs). }
  assert (Hqty : forall c, c ∈ dom targetWeights -> is_Some (quantities !! c)).
  { intros c [w Hw]%elem_of_dom. unfold quantities.
    rewrite getQuantities_lookup, Hw. by eexists. }
  split; [|split].
  - apply set_eq. intros c. unfold marketValues.
    rewrite elem_of_dom, ElementwiseProduct_lookup, fmap_is_Some. split.
    + intros Hc. destruct (decide (c ∈ dom targetWeights)) as [|Hn]; [done|].
      rewrite Hprice, decide_False in Hc by done. by destruct Hc.
    + apply Hsome.
  - intros Hb. unfold marketValues.
    rewrite ElementwiseProduct_lookup, Hprice, decide_True by done.
    unfold resolved_price. rewrite decide_True by done. simpl.
    destruct (Hqty _ Hb) as [q Hq]. exists q. split; [done|].
    unfold index. by rewrite Hq.
  - intros c Hc Hne. destruct (Hsome c Hc) as [x Hx].
    rewrite Hprice, decide_True in Hx by done.
    unfold resolved_price in Hx. rewrite decide_False in Hx by done.
    destruct (QueryTicker session (c +:+ BaseCurrency s)) as [ticker|] eqn:Hq;
      [|discriminate].
    destruct (Hqty c Hc) as [q Hqc]. exists ticker, q.
    split; [done|]. split; [done|]. unfold marketValues.
    rewrite ElementwiseProduct_lookup, Hprice, decide_True by done.
    unfold resolved_price. rewrite decide_False by done. rewrite Hq. simpl.
    unfold index. by rewrite Hqc.
Qed.

Lemma marketValues_resolved_witness :
  dom (ElementwiseProduct scenario_prices
         (getQuantities (scenario scenario_targetWeights 5000000 0 false)
            (Balances scenario_session) scenario_targetWeights))
  = dom scenario_targetWeights
  /\ (BaseCurrency (scenario scenario_targetWeights 5000000 0 false)
        ∈ dom scenario_targetWeights ->
      exists q,
        getQuantities (scenario scenario_targetWeights 5000000 0 false)
          (Balances scenario_session) scenario_targetWeights
          !! BaseCurrency (scenario scenario_targetWeights 5000000 0 false)
        = Some q
        /\ ElementwiseProduct scenario_prices
             (getQuantities (scenario scenario_targetWeights 5000000 0 false)
                (Balances scenario_session) scenario_targetWeights)
             !! BaseCurrency (scenario scenario_targetWeights 5000000 0 false)
           = Some (Mul One q))
  /\ (forall c, c ∈ dom scenario_targetWeights ->
        c <> BaseCurrency (scenario scenario_targetWeights 5000000 0 false) ->
        exists ticker q,
          QueryTicker scenario_session
            (c +:+ BaseCurrency (scenario scenario_targetWeights 5000000 0 false))
          = inl ticker
          /\ getQuantities (scenario scenario_targetWeights 5000000 0 false)
               (Balances scenario_session) scenario_targetWeights !! c = Some q
          /\ ElementwiseProduct scenario_prices
               (getQuantities (scenario scenario_targetWeights 5000000 0 false)
                  (Balances scenario_session) scenario_targetWeights) !! c
             = Some (Mul (Last ticker) q)).
Proof.
  apply (marketValues_resolved (scenario scenario_targetWeights 5000000 0 false)
           scenario_session scenario_targetWeights scenario_range
           scenario_prices [CallQueryTicker "BTCUSDT"]).
  - exact scenario_range_ranges.
  - reflexivity.
Defined.

(** X23: [getPrices] notifies exactly when it returns an error, and then
    with the error it returns. *)
Theorem getPrices_notifies_iff (s : Strategy) (session : ExchangeSession)
    (kvs : list (string * Value)) (err : error) :
  CallNotify err ∈ trace (getPrices_in s session kvs)
  <-> (result (getPrices_in s session kvs)).2 = Some err.
Proof.
  unfold getPrices_in.
  destruct (getPrices_loop s session kvs ∅) as [[prices [err'|]] t] eqn:H; simpl.
  - apply getPrices_loop_error in H as (l1 & c & w & l2 & t1 & _ & _ & _ & Hl1 & ->).
    destruct (getPrices_loop_ok _ _ _ _ _ _ Hl1) as [_ ->]. split.
    + intros [(c' & _ & _ & [=])%elem_of_lookups|Hin]%elem_of_app.
      apply elem_of_cons in Hin as [[=]|Hin].
      apply elem_of_cons in Hin as [[= ->]|Hin]; [done|].
      apply elem_of_cons in Hin as [[=]|[]%elem_of_nil].
    + intros [= ->]. rewrite elem_of_app. right. right. left.
  - destruct (getPrices_loop_ok _ _ _ _ _ _ H) as [_ ->]. split; [|discriminate].
    intros (c' & _ & _ & [=])%elem_of_lookups.
Qed.
